(** * claude-usage: the resilient usage-fetch pipeline of [src/extension.ts]

    A shallow embedding of the cookie formatter, the [__cf_bm] cookie cache
    and acquirer, the three-strategy request dispatcher, its error synthesis
    and the caller-facing shape check, followed by the properties of the
    specification that concern them.

    Modelling conventions.
    - A JavaScript string is the list of its UTF-16 code units ([jsstring]).
    - An [async] function is a computation in the monad [M]: it reads and
      writes the two module-level cache variables, appends to a log of the
      transport calls it performs, and completes normally or abruptly
      ([Return] / [Throw]).  Assignments made before a [throw] persist.
    - The network, the clock and the built-ins that are not part of the
      repository (JSON.stringify, encodeURIComponent, Headers.append, Date
      formatting, the product of two doubles) are parameters; those that can
      throw yield a completion. *)

From Stdlib Require Import List ZArith NArith QArith Qround String Ascii Bool Lia.
From Stdlib Require DecimalString.
From Stdlib Require Import Lqa.
Import ListNotations.

Close Scope Q_scope.
Open Scope Z_scope.
Open Scope list_scope.


(* ================================================================= *)
(** ** JavaScript strings *)

Module Js.

Definition codeunit := N.
Definition jsstring := list codeunit.

(** A string literal of the source whose characters are all ASCII. *)
Definition lit (s : string) : jsstring :=
  map N_of_ascii (list_ascii_of_string s).

Definition LF : jsstring := [10%N].

Definition cu_eqb (a b : codeunit) : bool := N.eqb a b.

Fixpoint str_eqb (a b : jsstring) : bool :=
  match a, b with
  | [], [] => true
  | x :: a', y :: b' => cu_eqb x y && str_eqb a' b'
  | _, _ => false
  end.

(** [s.startsWith(p)] *)
Fixpoint startsWith (s p : jsstring) {struct p} : bool :=
  match p, s with
  | [], _ => true
  | _ :: _, [] => false
  | a :: p', b :: s' => cu_eqb a b && startsWith s' p'
  end.

(** [s.includes(p)] *)
Fixpoint includes (s p : jsstring) : bool :=
  startsWith s p ||
  match s with
  | [] => false
  | _ :: s' => includes s' p
  end.

(** [s.substring(0, n)] and [s.slice(0, n)] for a constant [n >= 0]. *)
Definition substring0 (s : jsstring) (n : nat) : jsstring := firstn n s.

(** WhiteSpace and LineTerminator code units of ECMAScript, the ones
    [String.prototype.trim] strips. *)
Definition isWhiteSpace (c : codeunit) : bool :=
  ((9 <=? c) && (c <=? 13) || (c =? 32) || (c =? 160) || (c =? 5760)
   || (8192 <=? c) && (c <=? 8202) || (c =? 8232) || (c =? 8233)
   || (c =? 8239) || (c =? 8287) || (c =? 12288) || (c =? 65279))%N.

Fixpoint trimStart (s : jsstring) : jsstring :=
  match s with
  | [] => []
  | c :: s' => if isWhiteSpace c then trimStart s' else s
  end.

Fixpoint trimEnd (s : jsstring) : jsstring :=
  match s with
  | [] => []
  | c :: s' =>
      match trimEnd s' with
      | [] => if isWhiteSpace c then [] else [c]
      | r => c :: r
      end
  end.

(** [s.trim()] *)
Definition trim (s : jsstring) : jsstring := trimEnd (trimStart s).

(** [s.split(sep)] for a separator of one code unit; both call sites of the
    source pass a one-character literal. *)
Fixpoint split (s : jsstring) (sep : codeunit) : list jsstring :=
  match s with
  | [] => [[]]
  | c :: s' =>
      if cu_eqb c sep then [] :: split s' sep
      else match split s' sep with
           | p :: ps => (c :: p) :: ps
           | [] => [[c]]
           end
  end.

(** Truthiness of a string: the empty string is falsy. *)
Definition truthy_str (s : jsstring) : bool :=
  match s with [] => false | _ => true end.

(** Decimal rendering of an integer, as a template literal renders an
    integral number. *)
Definition Z_to_string (z : Z) : jsstring :=
  lit (DecimalString.NilZero.string_of_int (Z.to_int z)).

End Js.
Import Js.

Definition SEMICOLON : codeunit := 59%N.
Definition EQUALS : codeunit := 61%N.
Definition COMMA : codeunit := 44%N.

(* ================================================================= *)
(** ** Constants *)

Definition API_BASE_URL : jsstring := lit "https://claude.ai".
Definition API_USAGE_PATH : jsstring := lit "/api/organizations".
Definition CF_BM_COOKIE_CACHE_TTL_MS : Z := 5 * 60 * 1000.
Definition REQUEST_TIMEOUT_MS : Z := 10000.
Definition ERROR_MESSAGE_MAX_LENGTH : nat := 200.
Definition ERROR_DETAILS_MAX_LENGTH : nat := 500.

(* ================================================================= *)
(** ** Credential formatter *)

Definition Headers := list (jsstring * jsstring).

Definition getStandardHeaders (cookieValue : jsstring) : Headers :=
  [ (lit "Cookie", cookieValue);
    (lit "User-Agent",
      lit "Mozilla/5.0 (Windows NT 10.0; Win64; x64) AppleWebKit/537.36 (KHTML, like Gecko) Chrome/120.0.0.0 Safari/537.36");
    (lit "Accept", lit "*/*");
    (lit "Accept-Language", lit "en-US,en;q=0.9");
    (lit "Accept-Encoding", lit "gzip, deflate, br");
    (lit "Cache-Control", lit "no-cache");
    (lit "Connection", lit "keep-alive") ].

Definition formatSessionKeyCookie (sessionKey : jsstring) : jsstring :=
  let trimmed := trim sessionKey in
  if negb (includes trimmed (lit ";"))
     && (List.length (split trimmed EQUALS) <=? 2)%nat
  then lit "sessionKey=" ++ trimmed
  else trimmed.


(* ================================================================= *)
(** ** Values, errors and completions *)

(** A JavaScript number: an IEEE double is either not finite or a rational. *)
Inductive Number :=
| NaN
| PosInfinity
| NegInfinity
| Finite (q : Q).

(** The values a response body can hold once parsed. *)
#[warnings="-register-all"] Inductive Value :=
| VNull
| VBool (b : bool)
| VNumber (n : Number)
| VString (s : jsstring)
| VArray (items : list Value)
| VObject (fields : list (jsstring * Value)).

(** An [Error] object: its [name] and its [message]. *)
Record Error := mkError { name : jsstring; message : jsstring }.

(** [new Error(msg)] *)
Definition new_Error (msg : jsstring) : Error := mkError (lit "Error") msg.

(** [String(error)], that is [Error.prototype.toString]. *)
Definition String_of_Error (e : Error) : jsstring :=
  match name e, message e with
  | [], m => m
  | n, [] => n
  | n, m => n ++ lit ": " ++ m
  end.

(** [a || b] on strings. *)
Definition or_else (a b : jsstring) : jsstring :=
  if truthy_str a then a else b.

Inductive completion (A : Type) :=
| Return (a : A)
| Throw (e : Error).
Arguments Return {A} a.
Arguments Throw {A} e.

(* ================================================================= *)
(** ** The world outside the module *)

Inductive Client := Fetch | Undici | Axios.

(** One outgoing request: which HTTP client issued it, and to which URL. *)
Record Call := mkCall { client : Client; target : jsstring }.

(** When a request settles, relative to [REQUEST_TIMEOUT_MS]. *)
Inductive Timed (A : Type) :=
| Within (a : A)
| After (a : A).
Arguments Within {A} a.
Arguments After {A} a.

Definition settled {A} (t : Timed A) : A :=
  match t with Within a => a | After a => a end.

(** A raw response header of undici: absent, one string, or an array. *)
Inductive HeaderValue :=
| HString (s : jsstring)
| HArray (l : list jsstring).

(** What [request] of undici resolves with. *)
Record UndiciResponse := mkUndiciResponse {
  statusCode : Z;
  responseHeaders : jsstring -> option HeaderValue;
  body_json : completion Value          (* [await body.json()] *)
}.

(** What [fetch] resolves with. *)
Record FetchResponse := mkFetchResponse {
  status : Z;
  text : completion jsstring;           (* [await response.text()] *)
  json : completion Value;              (* [await response.json()] *)
  headers_get : jsstring -> option jsstring
}.

(** [response.ok] *)
Definition ok (r : FetchResponse) : bool :=
  (200 <=? status r)%Z && (status r <=? 299)%Z.

(** What [axios.get] resolves with under [validateStatus: () => true]. *)
Record AxiosResponse := mkAxiosResponse {
  ax_status : Z;
  ax_data : Value
}.

Record World := mkWorld {
  (** the three HTTP clients, as functions of the URL and the headers sent *)
  undici_request : jsstring -> Headers -> Timed (completion UndiciResponse);
  global_fetch : jsstring -> Headers -> Timed (completion FetchResponse);
  axios_get : jsstring -> Headers -> Timed (completion AxiosResponse);
  (** [Date.now()] during this invocation *)
  Date_now : Z;
  (** built-ins *)
  JSON_stringify : Value -> jsstring;
  (** [encodeURIComponent(s)]; it throws a URIError on a lone surrogate *)
  encodeURIComponent : jsstring -> completion jsstring;
  (** [headers.append(name, value)] on a [Headers] object; it throws a
      TypeError on a value that is not a valid header value *)
  Headers_append : jsstring -> jsstring -> completion unit;
  (** [new Date(v).getTime()], [None] for NaN, and [toLocaleString] *)
  Date_getTime : Value -> option Z;
  Date_toLocaleString : Z -> jsstring;
  (** [new Date().toLocaleTimeString()] *)
  now_toLocaleTimeString : jsstring;
  (** [String(v)] as a template literal renders a value *)
  String_of_Value : Value -> jsstring
}.

(** The error a request aborted through its [AbortController] rejects with. *)
Definition AbortError : Error :=
  mkError (lit "AbortError") (lit "This operation was aborted").

(* ================================================================= *)
(** ** The cookie cache and the monad of [async] functions *)

(** The module-level variables [cfBmCookie] and [cfBmCookieExpiry]. *)
Record Cache := mkCache {
  cfBmCookie : option jsstring;
  cfBmCookieExpiry : Z
}.

Definition initial_cache : Cache := mkCache None 0.

Definition M (A : Type) : Type :=
  Cache -> completion A * Cache * list Call.

Definition ret {A} (a : A) : M A := fun c => (Return a, c, []).

Definition throw {A} (e : Error) : M A := fun c => (Throw e, c, []).

Definition bind {A B} (m : M A) (k : A -> M B) : M B :=
  fun c =>
    match m c with
    | (Return a, c1, t1) =>
        let '(r, c2, t2) := k a c1 in (r, c2, t1 ++ t2)
    | (Throw e, c1, t1) => (Throw e, c1, t1)
    end.

Notation "x <- m ;; k" := (bind m (fun x => k))
  (at level 61, m at next level, right associativity).
Notation "m ;;; k" := (bind m (fun _ => k))
  (at level 61, right associativity).

(** [try { body } catch (e) { handler }] *)
Definition try_catch {A} (body : M A) (handler : Error -> M A) : M A :=
  fun c =>
    match body c with
    | (Return a, c1, t1) => (Return a, c1, t1)
    | (Throw e, c1, t1) =>
        let '(r, c2, t2) := handler e c1 in (r, c2, t1 ++ t2)
    end.

(** Awaiting a request: the call is logged and its completion taken over. *)
Definition await {A} (call : Call) (r : completion A) : M A :=
  fun c => (r, c, [call]).

(** Awaiting a promise that is already at hand (a body reader). *)
Definition settle {A} (r : completion A) : M A :=
  fun c => (r, c, []).

(** Evaluating an expression that may throw. *)
Definition eval {A} (r : completion A) : M A :=
  fun c => (r, c, []).

Definition get_cfBmCookie : M (option jsstring) :=
  fun c => (Return (cfBmCookie c), c, []).
Definition get_cfBmCookieExpiry : M Z :=
  fun c => (Return (cfBmCookieExpiry c), c, []).
Definition set_cfBmCookie (v : option jsstring) : M unit :=
  fun c => (Return tt, mkCache v (cfBmCookieExpiry c), []).
Definition set_cfBmCookieExpiry (t : Z) : M unit :=
  fun c => (Return tt, mkCache (cfBmCookie c) t, []).

Definition outcome {A} (r : completion A * Cache * list Call) : completion A :=
  fst (fst r).
Definition cache_after {A} (r : completion A * Cache * list Call) : Cache :=
  snd (fst r).
Definition calls {A} (r : completion A * Cache * list Call) : list Call :=
  snd r.

(** Truthiness of [string | null]. *)
Definition truthy_opt (v : option jsstring) : bool :=
  match v with Some s => truthy_str s | None => false end.

(* ================================================================= *)
(** ** Cookie acquirer *)

Fixpoint takeUntil (d : codeunit) (s : jsstring) : jsstring :=
  match s with
  | [] => []
  | c :: s' => if cu_eqb c d then [] else c :: takeUntil d s'
  end.

(** [cookie.match(/__cf_bm=([^;]+)/)]: the first capture group of the
    leftmost match, [None] when the pattern does not match. *)
Fixpoint match_cf_bm (cookie : jsstring) : option jsstring :=
  match cookie with
  | [] => None
  | _ :: rest =>
      if startsWith cookie (lit "__cf_bm=") then
        match takeUntil SEMICOLON (skipn 8 cookie) with
        | [] => match_cf_bm rest
        | v => Some v
        end
      else match_cf_bm rest
  end.

(** The two identical [for (const cookie of ...)] loops: on the first
    cookie that matches, both cache variables are assigned and the stored
    cookie is returned; [None] when the loop runs to its end. *)
Fixpoint scan_cookies (now : Z) (cookies : list jsstring) : M (option jsstring) :=
  match cookies with
  | [] => ret None
  | cookie :: rest =>
      match match_cf_bm cookie with
      | Some v =>
          set_cfBmCookie (Some (lit "__cf_bm=" ++ v)) ;;;
          set_cfBmCookieExpiry (now + CF_BM_COOKIE_CACHE_TTL_MS) ;;;
          get_cfBmCookie
      | None => scan_cookies now rest
      end
  end.

Section Pipeline.

Variable w : World.

(** [Promise.race([requestPromise, timeoutPromise])] *)
Definition race_timeout {A} (r : Timed (completion A)) : completion A :=
  match r with
  | Within c => c
  | After _ => Throw (new_Error (lit "Timeout fetching __cf_bm cookie"))
  end.

(** A [fetch] whose signal is aborted after [REQUEST_TIMEOUT_MS]. *)
Definition abort_after_timeout {A} (r : Timed (completion A)) : completion A :=
  match r with
  | Within c => c
  | After _ => Throw AbortError
  end.

Definition fetchCfBmCookie (sessionKey : jsstring) : M (option jsstring) :=
  let now := Date_now w in
  cached <- get_cfBmCookie ;;
  expiry <- get_cfBmCookieExpiry ;;
  if truthy_opt cached && (now <? expiry)%Z then ret cached
  else
    let sessionKeyCookie := formatSessionKeyCookie sessionKey in
    let headers := getStandardHeaders sessionKeyCookie in
    try_catch
      (resp <- await (mkCall Undici API_BASE_URL)
                 (race_timeout (undici_request w API_BASE_URL headers)) ;;
       match responseHeaders resp (lit "set-cookie") with
       | Some (HArray cookieArray) => scan_cookies now cookieArray
       | Some (HString s) =>
           if truthy_str s then scan_cookies now [s] else ret None
       | None => ret None
       end)
      (fun e =>
         if negb (includes (message e) (lit "Timeout")) then
           try_catch
             (response <- await (mkCall Fetch API_BASE_URL)
                            (abort_after_timeout
                               (global_fetch w API_BASE_URL headers)) ;;
              match headers_get response (lit "set-cookie") with
              | Some setCookieHeaders =>
                  if truthy_str setCookieHeaders then
                    scan_cookies now (map trim (split setCookieHeaders COMMA))
                  else ret None
              | None => ret None
              end)
             (fun e2 => ret None)
         else ret None).

(* ================================================================= *)
(** ** Request dispatcher *)

(** The condition written twice in [fetchUsage]: the text carries one of the
    Cloudflare challenge markers. *)
Definition is_challenge (errorMsg : jsstring) : bool :=
  includes errorMsg (lit "Just a moment")
  || includes errorMsg (lit "cf-browser-verification")
  || includes errorMsg (lit "challenge-platform")
  || includes errorMsg (lit "403").

(** [new Error(`HTTP ${status}: ${excerpt.substring(0, ERROR_MESSAGE_MAX_LENGTH)}`)] *)
Definition http_error (st : Z) (excerpt : jsstring) : Error :=
  new_Error (lit "HTTP " ++ Z_to_string st ++ lit ": "
             ++ substring0 excerpt ERROR_MESSAGE_MAX_LENGTH).

Definition is_2xx (st : Z) : bool := (200 <=? st)%Z && (st <? 300)%Z.

(** [Object.entries(standardHeaders).forEach(([key, value]) =>
    myHeaders.append(key, value))]: the first append that throws ends it. *)
Fixpoint append_all (entries : Headers) : completion unit :=
  match entries with
  | [] => Return tt
  | (key, value) :: rest =>
      match Headers_append w key value with
      | Return _ => append_all rest
      | Throw e => Throw e
      end
  end.

(** Method 1: native fetch.  The [Headers] object is filled before
    [fetch] is called. *)
Definition method1 (url : jsstring) (standardHeaders : Headers) : M Value :=
  eval (append_all standardHeaders) ;;;
  response <- await (mkCall Fetch url)
                (settled (global_fetch w url standardHeaders)) ;;
  if negb (ok response) then
    text <- settle (text response) ;;
    throw (http_error (status response) text)
  else
    data <- settle (json response) ;;
    ret data.

(** Method 2: undici.  The body is parsed before the status is looked at. *)
Definition method2 (url : jsstring) (standardHeaders : Headers) : M Value :=
  r <- await (mkCall Undici url)
         (settled (undici_request w url standardHeaders)) ;;
  data <- settle (body_json r) ;;
  if is_2xx (statusCode r) then ret data
  else throw (http_error (statusCode r) (JSON_stringify w data)).

(** Method 3: axios. *)
Definition method3 (url : jsstring) (standardHeaders : Headers) : M Value :=
  response <- await (mkCall Axios url)
                (settled (axios_get w url standardHeaders)) ;;
  if is_2xx (ax_status response) then ret (ax_data response)
  else
    let responseData :=
      match ax_data response with
      | VString s => s
      | d => JSON_stringify w d
      end in
    throw (http_error (ax_status response) responseData).

(** How the [for (const method of methods)] loop is left without a throw:
    by the [return] in its body, or by running out of methods. *)
Inductive LoopExit :=
| Returned (data : Value)
| Exhausted (lastError : option Error).

Fixpoint try_methods (methods : list (M Value)) (lastError : option Error)
  : M LoopExit :=
  match methods with
  | [] => ret (Exhausted lastError)
  | method :: rest =>
      try_catch
        (data <- method ;; ret (Returned data))
        (fun error =>
           (* lastError = error *)
           let errorMsg := or_else (message error) (String_of_Error error) in
           if is_challenge errorMsg then try_methods rest (Some error)
           else if negb (includes errorMsg (lit "HTTP")) then
                  try_methods rest (Some error)
                else throw error)
  end.

(** The text appended when the last error looks like a Cloudflare challenge. *)
Definition cloudflare_help : jsstring :=
  LF ++ LF ++ [9888%N; 65039%N] ++ lit " Cloudflare bot protection detected."
  ++ LF ++ LF
  ++ lit "This is a known limitation - Cloudflare blocks automated requests based on TLS fingerprinting."
  ++ LF
  ++ lit "Postman works because it uses a different HTTP client (libcurl) that Cloudflare trusts."
  ++ LF ++ LF
  ++ lit "Possible solutions:" ++ LF
  ++ lit "1. Use a fresh Cookie header from Postman (__cf_bm cookie expires quickly)"
  ++ LF
  ++ lit "2. Use a proxy service that can handle Cloudflare challenges" ++ LF
  ++ lit "3. Contact Claude.ai to request API access or whitelisting".

(** Lines 499-517: the one error thrown when every method has failed. *)
Definition exhausted_error (lastError : option Error) : Error :=
  let errorMsg :=
    or_else (match lastError with Some e => message e | None => [] end)
            (lit "Unknown error") in
  let errorDetails := errorMsg in
  let errorBody :=
    if is_challenge errorMsg then cloudflare_help
    else substring0 errorMsg ERROR_DETAILS_MAX_LENGTH in
  new_Error (errorDetails ++ errorBody).

(** The template of line 401 around the encoded organization code. *)
Definition usage_url (encoded : jsstring) : jsstring :=
  API_BASE_URL ++ API_USAGE_PATH ++ lit "/" ++ encoded ++ lit "/usage".

(** The [Cookie] header value: [__cf_bm] (if available) + sessionKey. *)
Definition cookie_value (cfBm : option jsstring) (sessionKeyCookie : jsstring)
  : jsstring :=
  match cfBm with
  | Some c => if truthy_str c then c ++ lit "; " ++ sessionKeyCookie
              else sessionKeyCookie
  | None => sessionKeyCookie
  end.

Definition fetchUsage (org sessionKey : jsstring) : M Value :=
  encoded <- eval (encodeURIComponent w org) ;;
  let url := usage_url encoded in
  let sessionKeyCookie := formatSessionKeyCookie sessionKey in
  cfBm <- fetchCfBmCookie sessionKey ;;
  let cookieValue := cookie_value cfBm sessionKeyCookie in
  let standardHeaders := getStandardHeaders cookieValue in
  let methods :=
    [ method1 url standardHeaders;
      method2 url standardHeaders;
      method3 url standardHeaders ] in
  exit <- try_methods methods None ;;
  match exit with
  | Returned data => ret data
  | Exhausted lastError => throw (exhausted_error lastError)
  end.

(* ================================================================= *)
(** ** The caller-facing layer *)

(** [Math.round]: the nearest integer, ties toward plus infinity. *)
Definition Math_round (q : Q) : Z := Qfloor (q + (1 # 2))%Q.

(** The result is an integer between 0 and 100, returned as such. *)
Definition clampPercent (n : Number) : Z :=
  match n with
  | Finite q => Z.max 0 (Z.min 100 (Math_round q))
  | _ => 0
  end.

(** A value in a template literal. *)
Definition render (v : Value) : jsstring :=
  match v with
  | VString s => s
  | _ => String_of_Value w v
  end.

Definition formatLocal (iso : Value) : jsstring :=
  match Date_getTime w iso with
  | None => render iso
  | Some t => Date_toLocaleString w t
  end.

Definition safeErrorMessage (e : Error) : jsstring :=
  let msg := message e in
  substring0 msg ERROR_MESSAGE_MAX_LENGTH.

(** Property access [v.k] and [v?.k]; [None] is [undefined]. *)
Fixpoint lookup (k : jsstring) (fields : list (jsstring * Value)) : option Value :=
  match fields with
  | [] => None
  | (k', v) :: rest => if str_eqb k k' then Some v else lookup k rest
  end.

Definition get_prop (v : option Value) (k : jsstring) : option Value :=
  match v with
  | Some (VObject fields) => lookup k fields
  | _ => None
  end.

Definition truthy (v : option Value) : bool :=
  match v with
  | None => false
  | Some VNull => false
  | Some (VBool b) => b
  | Some (VNumber NaN) => false
  | Some (VNumber (Finite q)) => negb (Qeq_bool q 0)
  | Some (VNumber _) => true
  | Some (VString s) => truthy_str s
  | Some (VArray _) => true
  | Some (VObject _) => true
  end.

(** [typeof v === "number"] *)
Definition typeof_number (v : option Value) : bool :=
  match v with
  | Some (VNumber _) => true
  | _ => false
  end.

(** The status bar item. *)
Record Status := mkStatus {
  status_text : jsstring;
  status_tooltip : jsstring;
  status_command : jsstring
}.

(** The settings read by [refreshAndRender], defaults applied, and the
    stored secret. *)
Record Settings := mkSettings {
  organizationCode : jsstring;
  mode : jsstring;
  secret_sessionKey : option jsstring
}.

Definition not_configured : Status :=
  mkStatus (lit "$(pulse) Claude --")
    (lit "Claude Usage is not configured." ++ LF
     ++ lit "Click to set organization_code and sessionKey.")
    (lit "claudeUsage.configure").

Definition unexpected_shape : Status :=
  mkStatus (lit "$(warning) Claude ?")
    (lit "Unexpected response shape from Claude usage endpoint.")
    (lit "claudeUsage.refresh").

Definition troubleshooting_403 : jsstring :=
  LF ++ LF ++ [55357%N; 56589%N] ++ lit " Troubleshooting HTTP 403:" ++ LF
  ++ lit "1. Verify sessionKey: Get it from browser DevTools " ++ [8594%N]
  ++ lit " Application " ++ [8594%N] ++ lit " Cookies " ++ [8594%N]
  ++ lit " claude.ai" ++ LF
  ++ lit "2. Check organization_code: Should match your Claude organization"
  ++ LF
  ++ lit "3. SessionKey may be expired: Get a fresh one from an active browser session"
  ++ LF
  ++ lit "4. Try full cookie string: Copy entire Cookie header from Network tab"
  ++ LF
  ++ lit "5. Ensure you're logged into Claude.ai in your browser".

Definition error_status (e : Error) : Status :=
  let errorMsg := safeErrorMessage e in
  let is403 := includes errorMsg (lit "403") in
  let tooltip :=
    lit "Failed to refresh Claude usage." ++ LF ++ LF ++ lit "Error: "
    ++ errorMsg in
  let tooltip := if is403 then tooltip ++ troubleshooting_403 else tooltip in
  let tooltip :=
    tooltip ++ LF ++ LF
    ++ lit "Click to reconfigure or use " ++ [34%N]
    ++ lit "Claude Usage: Debug Info" ++ [34%N] ++ lit " command" in
  mkStatus (lit "$(error) Claude ERR") tooltip (lit "claudeUsage.configure").

Definition usage_status (cfg : Settings) (utilization : Number) (resets_at : Value)
  : Status :=
  let used := clampPercent utilization in
  let left := clampPercent (Finite (inject_Z (100 - used))) in
  let resetsLocal := formatLocal resets_at in
  let updatedAt := now_toLocaleTimeString w in
  let displayValue :=
    if str_eqb (mode cfg) (lit "left") then Z_to_string left ++ lit "% left"
    else Z_to_string used ++ lit "% used" in
  mkStatus
    (lit "$(pulse) Claude " ++ displayValue)
    (lit "Resets at: " ++ resetsLocal ++ LF
     ++ lit "Last updated: " ++ updatedAt ++ LF
     ++ lit "Click to toggle between used/left" ++ LF
     ++ lit "Use Command Palette (Ctrl+Shift+P) " ++ [8594%N] ++ lit " "
     ++ [34%N] ++ lit "Claude Usage: Edit organization_code" ++ [34%N]
     ++ lit " or " ++ [34%N] ++ lit "Edit sessionKey" ++ [34%N])
    (lit "claudeUsage.toggleMode").

(** [refreshAndRender]: the status bar item as the call leaves it. *)
Definition refreshAndRender (cfg : Settings) : M Status :=
  let org := trim (organizationCode cfg) in
  let sessionKey :=
    match secret_sessionKey cfg with Some s => trim s | None => [] end in
  if negb (truthy_str org) || negb (truthy_str sessionKey) then
    ret not_configured
  else
    try_catch
      (data <- fetchUsage org sessionKey ;;
       let five := get_prop (Some data) (lit "five_hour") in
       if negb (truthy five)
          || negb (typeof_number (get_prop five (lit "utilization")))
          || negb (truthy (get_prop five (lit "resets_at")))
       then ret unexpected_shape
       else
         match get_prop five (lit "utilization"),
               get_prop five (lit "resets_at") with
         | Some (VNumber utilization), Some resets_at =>
             ret (usage_status cfg utilization resets_at)
         | _, _ => ret unexpected_shape   (* excluded by the test above *)
         end)
      (fun e => ret (error_status e)).

End Pipeline.

(* ================================================================= *)
(** ** The commands and the refresh timer *)

(** The settings are modelled as the values [cfg.get] and [secrets.get]
    return; an update is visible to the next read.  The configuration
    change event an update raises is a separate handler and not part of the
    command that caused it. *)

(** A message shown to the user. *)
Inductive Notice :=
| Information (msg : jsstring)
| Warning (msg : jsstring).

(** What a command leaves behind: the settings, the messages it showed and
    the status bar item if it rendered it anew. *)
Record CommandResult := mkCommandResult {
  settings_after : Settings;
  notices : list Notice;
  rendered : option Status
}.

Definition with_organizationCode (cfg : Settings) (v : jsstring) : Settings :=
  mkSettings v (mode cfg) (secret_sessionKey cfg).

Definition with_mode (cfg : Settings) (v : jsstring) : Settings :=
  mkSettings (organizationCode cfg) v (secret_sessionKey cfg).

Definition with_secret (cfg : Settings) (v : option jsstring) : Settings :=
  mkSettings (organizationCode cfg) (mode cfg) v.

(** Command [claudeUsage.refresh]. *)
Definition cmd_refresh (w : World) (cfg : Settings) : M CommandResult :=
  st <- refreshAndRender w cfg ;;
  ret (mkCommandResult cfg [] (Some st)).

(** Command [claudeUsage.clearSessionKey]. *)
Definition cmd_clearSessionKey (w : World) (cfg : Settings) : M CommandResult :=
  let cfg := with_secret cfg None in
  st <- refreshAndRender w cfg ;;
  ret (mkCommandResult cfg
         [Information (lit "Claude Usage: sessionKey cleared.")] (Some st)).

(** Command [claudeUsage.toggleMode]. *)
Definition cmd_toggleMode (w : World) (cfg : Settings) : M CommandResult :=
  let current := mode cfg in
  let next := if str_eqb current (lit "left") then lit "used" else lit "left" in
  let cfg := with_mode cfg next in
  st <- refreshAndRender w cfg ;;
  ret (mkCommandResult cfg [] (Some st)).

(** Command [claudeUsage.editOrganizationCode]; [answer] is what the input
    box resolves with, [None] when it is dismissed. *)
Definition cmd_editOrganizationCode (w : World) (cfg : Settings)
  (answer : option jsstring) : M CommandResult :=
  match answer with
  | Some newOrg =>
      let trimmed := trim newOrg in
      if truthy_str trimmed then
        let cfg := with_organizationCode cfg trimmed in
        st <- refreshAndRender w cfg ;;
        ret (mkCommandResult cfg
               [Information (lit "Claude Usage: organization_code updated.")]
               (Some st))
      else
        ret (mkCommandResult cfg
               [Warning (lit "Claude Usage: organization_code cannot be empty.")]
               None)
  | None => ret (mkCommandResult cfg [] None)
  end.

(** Command [claudeUsage.editSessionKey]. *)
Definition cmd_editSessionKey (w : World) (cfg : Settings)
  (answer : option jsstring) : M CommandResult :=
  match answer with
  | Some newKey =>
      let trimmed := trim newKey in
      if truthy_str trimmed then
        let cfg := with_secret cfg (Some trimmed) in
        st <- refreshAndRender w cfg ;;
        ret (mkCommandResult cfg
               [Information (lit "Claude Usage: sessionKey updated.")]
               (Some st))
      else
        ret (mkCommandResult cfg
               [Warning (lit "Claude Usage: sessionKey cannot be empty.")]
               None)
  | None => ret (mkCommandResult cfg [] None)
  end.

(** The two input boxes of [ensureConfigured]. *)
Inductive Prompt := AskOrganizationCode | AskSessionKey.

(** [ensureConfigured]: the settings it leaves and the input boxes it
    showed; [orgAnswer] and [keyAnswer] are what the boxes resolve with if
    they are shown. *)
Definition ensureConfigured (cfg : Settings)
  (orgAnswer keyAnswer : option jsstring) : Settings * list Prompt :=
  let org := trim (organizationCode cfg) in
  let '(cfg, asked1) :=
    if negb (truthy_str org) then
      let org := match orgAnswer with Some a => trim a | None => [] end in
      (if truthy_str org then with_organizationCode cfg org else cfg,
       [AskOrganizationCode])
    else (cfg, []) in
  let sessionKey :=
    match secret_sessionKey cfg with Some s => trim s | None => [] end in
  if negb (truthy_str sessionKey) then
    let sessionKey := match keyAnswer with Some a => trim a | None => [] end in
    (if truthy_str sessionKey then with_secret cfg (Some sessionKey) else cfg,
     asked1 ++ [AskSessionKey])
  else (cfg, asked1).

(** Command [claudeUsage.debug]: the text of the modal message, or the
    error the handler throws while it builds the URL. *)
Definition debug_info (w : World) (cfg : Settings) : completion jsstring :=
  let org := trim (organizationCode cfg) in
  let sessionKey :=
    match secret_sessionKey cfg with Some s => trim s | None => [] end in
  let url :=
    if truthy_str org
    then match encodeURIComponent w org with
         | Return encoded =>
             Return (API_BASE_URL ++ API_USAGE_PATH ++ lit "/" ++ encoded
                     ++ lit "/usage")
         | Throw e => Throw e
         end
    else Return (API_BASE_URL ++ API_USAGE_PATH ++ lit "/ORG/usage") in
  match url with
  | Throw e => Throw e
  | Return url =>
      Return
        ((lit "Organization Code: "
          ++ (if truthy_str org then substring0 org 4 ++ lit "..."
              else lit "NOT SET"))
         ++ LF
         ++ (lit "Session Key: "
             ++ (if truthy_str sessionKey
                 then substring0 sessionKey 10 ++ lit "... ("
                      ++ Z_to_string (Z.of_nat (List.length sessionKey))
                      ++ lit " chars)"
                 else lit "NOT SET"))
         ++ LF
         ++ (lit "URL: " ++ url))
  end.

(** [Math.max(a, b)] *)
Definition Math_max (a b : Number) : Number :=
  match a, b with
  | NaN, _ => NaN
  | _, NaN => NaN
  | PosInfinity, _ => PosInfinity
  | _, PosInfinity => PosInfinity
  | NegInfinity, x => x
  | x, NegInfinity => x
  | Finite p, Finite q => Finite (if Qle_bool p q then q else p)
  end.

(** The product of two doubles, [a * b], is not modelled: it rounds and
    overflows, and is a parameter of what uses it. *)
Definition DoubleProduct := Number -> Number -> Number.

(** The interval timers of the host and the module-level [refreshTimer].
    A timer handle is an object, hence truthy. *)
Record Timers := mkTimers {
  refreshTimer : option nat;
  live : list (nat * Number);        (* handle and delay of each interval *)
  next_handle : nat
}.

(** [clearInterval(t)] *)
Definition clearInterval (t : nat) (live : list (nat * Number))
  : list (nat * Number) :=
  filter (fun p => negb (Nat.eqb (fst p) t)) live.

Definition stopAutoRefresh (h : Timers) : Timers :=
  match refreshTimer h with
  | Some t => mkTimers None (clearInterval t (live h)) (next_handle h)
  | None => h
  end.

(** [startAutoRefresh], given the [autoRefresh] and [refreshSeconds]
    settings. *)
Definition startAutoRefresh (times : DoubleProduct)
  (enabled : bool) (refreshSeconds : Number) (h : Timers) : Timers :=
  let h := stopAutoRefresh h in
  let seconds := Math_max (Finite 30) refreshSeconds in
  if negb enabled then h
  else
    let t := next_handle h in
    mkTimers (Some t) (live h ++ [(t, times seconds (Finite 1000))]) (S t).

(** [deactivate] *)
Definition deactivate (h : Timers) : Timers := stopAutoRefresh h.

(* ================================================================= *)
(** ** Vocabulary of the statements *)

(** The shape of every value the module assigns to [cfBmCookie]. *)
Definition cf_bm_pair (s : jsstring) : Prop :=
  exists v, s = lit "__cf_bm=" ++ v /\ v <> [] /\ ~ In SEMICOLON v.

Definition stored (now : Z) (cookie : jsstring) : Cache :=
  mkCache (Some cookie) (now + CF_BM_COOKIE_CACHE_TTL_MS).

(** The first cookie of the list in which the pattern matches, rebuilt as
    the loop body rebuilds it. *)
Fixpoint first_cf_bm (cookies : list jsstring) : option jsstring :=
  match cookies with
  | [] => None
  | cookie :: rest =>
      match match_cf_bm cookie with
      | Some v => Some (lit "__cf_bm=" ++ v)
      | None => first_cf_bm rest
      end
  end.

(** The cache a call leaves behind, given what it extracted. *)
Definition cache_with (now : Z) (found : option jsstring) (c : Cache) : Cache :=
  match found with
  | Some k => stored now k
  | None => c
  end.

(** The test at the top of [fetchCfBmCookie]. *)
Definition cache_hit (w : World) (c : Cache) : bool :=
  truthy_opt (cfBmCookie c) && (Date_now w <? cfBmCookieExpiry c)%Z.

(** The priming request of strategy A with its 10 s race, and of strategy B. *)
Definition priming_headers (sessionKey : jsstring) : Headers :=
  getStandardHeaders (formatSessionKeyCookie sessionKey).

Definition strategyA (w : World) (sessionKey : jsstring)
  : completion UndiciResponse :=
  race_timeout (undici_request w API_BASE_URL (priming_headers sessionKey)).

Definition callA : Call := mkCall Undici API_BASE_URL.
Definition callB : Call := mkCall Fetch API_BASE_URL.

(** The decision taken in the [catch] of the loop: go on with the next
    method, or rethrow. *)
Definition retryable (e : Error) : bool :=
  let errorMsg := or_else (message e) (String_of_Error e) in
  is_challenge errorMsg || negb (includes errorMsg (lit "HTTP")).

(** A method that makes the client calls [cs], leaves the cache alone and
    completes with [o]. *)
Definition performs (m : M Value) (o : completion Value) (cs : list Call)
  : Prop :=
  forall c, m c = (o, c, cs).

(** What each of the three methods completes with. *)
Definition result1 (w : World) (url : jsstring) (h : Headers) : completion Value :=
  outcome (method1 w url h initial_cache).
Definition result2 (w : World) (url : jsstring) (h : Headers) : completion Value :=
  outcome (method2 w url h initial_cache).
Definition result3 (w : World) (url : jsstring) (h : Headers) : completion Value :=
  outcome (method3 w url h initial_cache).

(** The client calls of the first method: the one [fetch], or none when
    filling the [Headers] object threw. *)
Definition calls1 (w : World) (url : jsstring) (h : Headers) : list Call :=
  calls (method1 w url h initial_cache).

(** The value [fetchCfBmCookie] hands to [fetchUsage]. *)
Definition acquired (w : World) (sessionKey : jsstring) (c : Cache)
  : option jsstring :=
  match outcome (fetchCfBmCookie w sessionKey c) with
  | Return v => v
  | Throw _ => None
  end.

(** The headers [fetchUsage] sends with each of its three requests. *)
Definition request_headers (w : World) (sessionKey : jsstring) (c : Cache)
  : Headers :=
  getStandardHeaders
    (cookie_value (acquired w sessionKey c) (formatSessionKeyCookie sessionKey)).


(** The one call each strategy makes of its client, in the order of the
    [methods] array. *)
Definition strategies (url : jsstring) : list Call :=
  [mkCall Fetch url; mkCall Undici url; mkCall Axios url].

(** The client calls of the first [n] strategies, as they are made with
    the headers [h]. *)
Definition usage_calls (w : World) (url : jsstring) (h : Headers) (n : nat)
  : list Call :=
  List.concat
    (firstn n [calls1 w url h; [mkCall Undici url]; [mkCall Axios url]]).

(** How [fetchUsage] turns the exit of its loop into its own completion. *)
Definition finish (r : completion LoopExit) : completion Value :=
  match r with
  | Return (Returned data) => Return data
  | Return (Exhausted lastError) => Throw (exhausted_error lastError)
  | Throw e => Throw e
  end.

Definition the_methods (w : World) (url sessionKey : jsstring) (c : Cache)
  : list (M Value) :=
  let h := request_headers w sessionKey c in
  [method1 w url h; method2 w url h; method3 w url h].



(** A string of white space only, the empty string included. *)
Definition blank (s : jsstring) : Prop :=
  Forall (fun c => isWhiteSpace c = true) s.

(** Both settings [refreshAndRender] needs are there. *)
Definition is_configured (cfg : Settings) : bool :=
  truthy_str (trim (organizationCode cfg))
  && truthy_str (match secret_sessionKey cfg with
                 | Some s => trim s
                 | None => []
                 end).

(** The module is the only owner of interval timers: none is live, or
    exactly the one [refreshTimer] holds. *)
Definition tidy (h : Timers) : Prop :=
  match refreshTimer h with
  | None => live h = []
  | Some t => exists d, live h = [(t, d)]
  end.

(** The calls the extension makes on its timer over its life time. *)
Inductive TimerOp :=
| Start (enabled : bool) (refreshSeconds : Number)
| Stop.

Definition timer_step (times : DoubleProduct) (h : Timers) (op : TimerOp)
  : Timers :=
  match op with
  | Start enabled refreshSeconds =>
      startAutoRefresh times enabled refreshSeconds h
  | Stop => stopAutoRefresh h
  end.

Definition no_timers : Timers := mkTimers None [] 0.

(** What is known of the product of two doubles and used here: on two
    integers that are at most 2^53 in absolute value, as is their product,
    it is exact. *)
Definition exact_on_integers (times : DoubleProduct) : Prop :=
  forall a b : Z,
    Z.abs a <= 2 ^ 53 -> Z.abs b <= 2 ^ 53 -> Z.abs (a * b) <= 2 ^ 53 ->
    times (Finite (inject_Z a)) (Finite (inject_Z b)) = Finite (inject_Z (a * b)).

(** What an input box gave, trimmed; empty when it was dismissed. *)
Definition answered (ans : option jsstring) : jsstring :=
  match ans with Some a => trim a | None => [] end.

(* ================================================================= *)
(** ** Concrete worlds *)

Module Samples.

Definition org : jsstring := lit "abc123".
Definition credential : jsstring := lit "sk-test-token".

Definition iso : jsstring := lit "2025-01-01T00:00:00Z".

(** [{five_hour: {utilization: 42.4, resets_at: "2025-01-01T00:00:00Z"}}] *)
Definition usage_body : Value :=
  VObject [(lit "five_hour",
            VObject [(lit "utilization", VNumber (Finite (424 # 10)));
                     (lit "resets_at", VString iso)])].


(** The body [JSON.parse] yields for a utilization written [1e999]. *)
Definition body_infinite_utilization : Value :=
  VObject [(lit "five_hour",
            VObject [(lit "utilization", VNumber PosInfinity);
                     (lit "resets_at", VString iso)])].

Definition getTime (v : Value) : option Z :=
  match v with
  | VString s => if str_eqb s iso then Some 1735689600000 else None
  | _ => None
  end.

(** Whether a string holds a surrogate code unit outside a pair. *)
Fixpoint lone_surrogate (s : jsstring) : bool :=
  match s with
  | [] => false
  | a :: rest =>
      if ((55296 <=? a) && (a <=? 56319))%N then
        match rest with
        | b :: rest' =>
            if ((56320 <=? b) && (b <=? 57343))%N then lone_surrogate rest'
            else true
        | [] => true
        end
      else if ((56320 <=? a) && (a <=? 57343))%N then true
      else lone_surrogate rest
  end.

(** A stand-in for [encodeURIComponent] that throws where the built-in
    does and otherwise leaves the string as it is. *)
Definition encode (s : jsstring) : completion jsstring :=
  if lone_surrogate s
  then Throw (mkError (lit "URIError") (lit "URI malformed"))
  else Return s.

(** A stand-in for [Headers.append]: a value with a NUL, a line break or a
    code unit above 255 is refused. *)
Definition append (key value : jsstring) : completion unit :=
  if existsb (fun c => (c =? 0) || (c =? 10) || (c =? 13) || (255 <? c))%N value
  then Throw (mkError (lit "TypeError") (lit "Invalid header value"))
  else Return tt.

(** An organization code with a lone high surrogate. *)
Definition org_malformed : jsstring := lit "abc" ++ [55357%N].

(** A credential with a line break inside. *)
Definition credential_with_newline : jsstring := lit "sk-" ++ LF ++ lit "x".

(** A world whose clients answer the priming URL and the usage URL with
    the given replies, whatever the headers. *)
Definition world
  (prime_undici : Timed (completion UndiciResponse))
  (prime_fetch : Timed (completion FetchResponse))
  (usage_fetch : Timed (completion FetchResponse))
  (usage_undici : Timed (completion UndiciResponse))
  (usage_axios : Timed (completion AxiosResponse))
  (now : Z) : World :=
  mkWorld
    (fun url _ => if str_eqb url API_BASE_URL then prime_undici else usage_undici)
    (fun url _ => if str_eqb url API_BASE_URL then prime_fetch else usage_fetch)
    (fun _ _ => usage_axios)
    now
    (fun _ => lit "{}")
    encode
    append
    getTime
    (fun _ => lit "1/1/2025, 12:00:00 AM")
    (lit "9:41:00 AM")
    (fun _ => lit "[object Object]").

Definition no_headers {A} : jsstring -> option A := fun _ => None.

(** A priming response that sets [__cf_bm=tok]. *)
Definition priming_ok : Timed (completion UndiciResponse) :=
  Within (Return
    (mkUndiciResponse 200
       (fun k => if str_eqb k (lit "set-cookie")
                 then Some (HArray [lit "other=1; Path=/";
                                    lit "__cf_bm=tok; Path=/; HttpOnly"])
                 else None)
       (Throw (mkError (lit "SyntaxError") (lit "Unexpected token <"))))).

(** A priming request that is still pending after ten seconds. *)
Definition priming_late : Timed (completion UndiciResponse) :=
  After (Throw (mkError (lit "Error") (lit "socket hang up"))).

(** A priming request refused by the network. *)
Definition priming_refused : Timed (completion UndiciResponse) :=
  Within (Throw (mkError (lit "Error") (lit "connect ECONNREFUSED"))).

Definition fetch_refused : Timed (completion FetchResponse) :=
  Within (Throw (mkError (lit "TypeError") (lit "fetch failed"))).

Definition fetch_reply (st : Z) (body : jsstring) (parsed : completion Value)
  : Timed (completion FetchResponse) :=
  Within (Return (mkFetchResponse st (Return body) parsed no_headers)).

Definition undici_reply (st : Z) (parsed : completion Value)
  : Timed (completion UndiciResponse) :=
  Within (Return (mkUndiciResponse st no_headers parsed)).

Definition axios_reply (st : Z) (data : Value)
  : Timed (completion AxiosResponse) :=
  Within (Return (mkAxiosResponse st data)).

Definition not_json : completion Value :=
  Throw (mkError (lit "SyntaxError") (lit "Unexpected token < in JSON")).

Definition challenge_page : jsstring := lit "<title>Just a moment...</title>".

(** Fetch and undici are met with a challenge page, axios gets through. *)
Definition w_third_succeeds : World :=
  world priming_late fetch_refused
    (fetch_reply 403 challenge_page not_json)
    (undici_reply 403 (Return (VObject [])))
    (axios_reply 200 usage_body)
    1000.

(** Every client is met with a challenge page. *)
Definition w_all_challenged : World :=
  world priming_late fetch_refused
    (fetch_reply 403 challenge_page not_json)
    (undici_reply 403 (Return (VObject [])))
    (axios_reply 403 (VString challenge_page))
    1000.

(** The first client gets a plain 404. *)
Definition w_not_found : World :=
  world priming_late fetch_refused
    (fetch_reply 404 (lit "Not Found") not_json)
    (undici_reply 200 (Return usage_body))
    (axios_reply 200 usage_body)
    1000.

(** The first client succeeds; the priming request set no cookie. *)
Definition w_first_succeeds (body : Value) : World :=
  world priming_refused fetch_refused
    (fetch_reply 200 (lit "{}") (Return body))
    (undici_reply 200 (Return body))
    (axios_reply 200 body)
    1000.

(** The priming request stores a cookie at the given time. *)
Definition w_priming (now : Z) : World :=
  world priming_ok fetch_refused
    (fetch_reply 200 (lit "{}") (Return usage_body))
    (undici_reply 200 (Return usage_body))
    (axios_reply 200 usage_body)
    now.

(** Every client fails below HTTP with the same message. *)
Definition w_network_down (msg : jsstring) : World :=
  let e := mkError (lit "Error") msg in
  world (Within (Throw e)) (Within (Throw e)) (Within (Throw e))
    (Within (Throw e)) (Within (Throw e)) 1000.

(** The priming request gets no cookie and every usage request fails
    below HTTP with the same message. *)
Definition w_usage_down (msg : jsstring) : World :=
  let e := mkError (lit "Error") msg in
  world priming_late fetch_refused (Within (Throw e))
    (Within (Throw e)) (Within (Throw e)) 1000.

(** Fetch is refused, undici gets a 404 page that is not JSON, axios
    gets through. *)
Definition w_undici_html_404 : World :=
  world priming_late fetch_refused fetch_refused
    (undici_reply 404 not_json) (axios_reply 200 usage_body) 1000.

(** The combined [Set-Cookie] header as [fetch] hands it out, with a
    comma inside the value of [__cf_bm]. *)
Definition merged_set_cookie : jsstring :=
  lit "other=1; Path=/, __cf_bm=a,b; Path=/; HttpOnly".

(** Undici is refused on the priming request and fetch answers it. *)
Definition w_fallback : World :=
  world priming_refused
    (Within (Return (mkFetchResponse 200 (Return []) not_json
               (fun k => if str_eqb k (lit "set-cookie")
                         then Some merged_set_cookie else None))))
    (fetch_reply 200 (lit "{}") (Return usage_body))
    (undici_reply 200 (Return usage_body))
    (axios_reply 200 usage_body)
    1000.

(** Undici answers the priming request without any [Set-Cookie]. *)
Definition w_no_cookie : World :=
  world (undici_reply 200 not_json)
    (Within (Return (mkFetchResponse 200 (Return []) not_json
               (fun k => if str_eqb k (lit "set-cookie")
                         then Some merged_set_cookie else None))))
    (fetch_reply 200 (lit "{}") (Return usage_body))
    (undici_reply 200 (Return usage_body))
    (axios_reply 200 usage_body)
    1000.

Definition settings : Settings := mkSettings org (lit "left") (Some credential).

(** A product that is exact on finite numbers and leaves the others
    out. *)
Definition product : DoubleProduct :=
  fun a b =>
    match a, b with
    | Finite p, Finite q => Finite (p * q)
    | _, _ => NaN
    end.

End Samples.

(* ================================================================= *)
(** ** Facts about strings *)

Section StringFacts.

Lemma cu_eqb_eq (a b : codeunit) : cu_eqb a b = true <-> a = b.
Proof. apply N.eqb_eq. Qed.

Lemma cu_eqb_neq (a b : codeunit) : cu_eqb a b = false <-> a <> b.
Proof. apply N.eqb_neq. Qed.

Lemma includes_single (s : jsstring) (d : codeunit) :
  includes s [d] = false <-> ~ In d s.
Proof.
  induction s as [|c s IH]; simpl.
  - tauto.
  - rewrite andb_true_r, orb_false_iff, IH, cu_eqb_neq.
    split.
    + intros [Hd Hn] [Hc|Hin]; [congruence | tauto].
    + intros H; split; [intros ->; apply H; now left | tauto].
Qed.

Lemma split_length (s : jsstring) (d : codeunit) :
  List.length (split s d) = S (count_occ N.eq_dec s d).
Proof.
  induction s as [|c s IH]; simpl; [reflexivity|].
  destruct (cu_eqb c d) eqn:E.
  - apply cu_eqb_eq in E; subst c.
    destruct (N.eq_dec d d) as [_|n]; [|congruence].
    simpl; now rewrite IH.
  - apply cu_eqb_neq in E.
    destruct (N.eq_dec c d) as [e|_]; [congruence|].
    destruct (split s d) as [|p ps]; simpl in *; [discriminate | exact IH].
Qed.

Lemma trimStart_head (s : jsstring) :
  match trimStart s with
  | [] => True
  | c :: _ => isWhiteSpace c = false
  end.
Proof.
  induction s as [|c s IH]; simpl; [exact I|].
  destruct (isWhiteSpace c) eqn:E; [exact IH | exact E].
Qed.

Lemma trimEnd_idem (s : jsstring) : trimEnd (trimEnd s) = trimEnd s.
Proof.
  induction s as [|c s IH]; simpl; [reflexivity|].
  destruct (trimEnd s) as [|r rs] eqn:E.
  - destruct (isWhiteSpace c) eqn:W; simpl; [reflexivity | now rewrite W].
  - change (trimEnd (c :: r :: rs)) with
      (match trimEnd (r :: rs) with
       | [] => if isWhiteSpace c then [] else [c]
       | x => c :: x
       end).
    now rewrite IH.
Qed.

Lemma trimEnd_keeps_head (c : codeunit) (s : jsstring) :
  isWhiteSpace c = false -> exists r, trimEnd (c :: s) = c :: r.
Proof.
  intros W; simpl.
  destruct (trimEnd s) as [|r rs]; [rewrite W|]; eauto.
Qed.

Lemma trimStart_fixed (c : codeunit) (s : jsstring) :
  isWhiteSpace c = false -> trimStart (c :: s) = c :: s.
Proof. intros W; simpl; now rewrite W. Qed.

Lemma trim_idem (s : jsstring) : trim (trim s) = trim s.
Proof.
  unfold trim.
  pose proof (trimStart_head s) as H.
  destruct (trimStart s) as [|c t]; [reflexivity|].
  destruct (trimEnd_keeps_head c t H) as [r Hr].
  rewrite Hr, (trimStart_fixed c r H), <- Hr.
  apply trimEnd_idem.
Qed.

End StringFacts.

(** The test of [formatSessionKeyCookie], read on the trimmed string. *)
Lemma bare_token_test (t : jsstring) :
  negb (includes t (lit ";")) && (List.length (split t EQUALS) <=? 2)%nat = true
  <-> ~ In SEMICOLON t /\ (count_occ N.eq_dec t EQUALS <= 1)%nat.
Proof.
  change (lit ";") with [SEMICOLON].
  rewrite andb_true_iff, negb_true_iff, includes_single, split_length,
    Nat.leb_le.
  split; intros [H1 H2]; split; auto; lia.
Qed.

(** C4. [formatSessionKeyCookie] trims its input; when the trimmed string
    has no [;] and at most one [=] the result is ["sessionKey="] followed by
    the trimmed string, otherwise it is the trimmed string itself; the
    function is total and its result is non-empty whenever the trimmed
    input is. *)
Theorem formatSessionKeyCookie_contract (s : jsstring) :
  (~ In SEMICOLON (trim s) ->
   (count_occ N.eq_dec (trim s) EQUALS <= 1)%nat ->
   formatSessionKeyCookie s = lit "sessionKey=" ++ trim s)
  /\ (In SEMICOLON (trim s) \/ (1 < count_occ N.eq_dec (trim s) EQUALS)%nat ->
      formatSessionKeyCookie s = trim s)
  /\ (trim s <> [] -> formatSessionKeyCookie s <> []).
Proof.
  unfold formatSessionKeyCookie; cbv zeta.
  pose proof (bare_token_test (trim s)) as T.
  destruct (negb (includes (trim s) (lit ";"))
            && (List.length (split (trim s) EQUALS) <=? 2)%nat) eqn:E.
  - repeat split.
    + intros [Hs|Hc]; destruct (proj1 T eq_refl) as [H1 H2]; [tauto | lia].
    + discriminate.
  - repeat split.
    + intros H1 H2. destruct T as [_ T]. discriminate (T (conj H1 H2)).
    + auto.
Qed.

(** The contract at a bare token, at a cookie header and at a padded token. *)
Lemma formatSessionKeyCookie_contract_witness :
  formatSessionKeyCookie (lit "  sk-test-token ") = lit "sessionKey=sk-test-token"
  /\ formatSessionKeyCookie (lit "a=1; b=2 ") = lit "a=1; b=2"
  /\ formatSessionKeyCookie (lit " x ") <> [].
Proof.
  split; [|split].
  - apply (proj1 (formatSessionKeyCookie_contract (lit "  sk-test-token "))).
    + vm_compute. intros H. repeat (destruct H as [H|H]; [discriminate H|]).
      exact H.
    + vm_compute. lia.
  - apply (proj1 (proj2 (formatSessionKeyCookie_contract (lit "a=1; b=2 ")))).
    left. vm_compute. tauto.
  - apply (proj2 (proj2 (formatSessionKeyCookie_contract (lit " x ")))).
    vm_compute. discriminate.
Defined.

(** The pass-through branch of [formatSessionKeyCookie]. *)
Lemma formatSessionKeyCookie_passthrough (s : jsstring) :
  In SEMICOLON (trim s) \/ (1 < count_occ N.eq_dec (trim s) EQUALS)%nat ->
  formatSessionKeyCookie s = trim s.
Proof.
  intros H. unfold formatSessionKeyCookie. cbv zeta.
  pose proof (bare_token_test (trim s)) as T.
  destruct (negb (includes (trim s) (lit ";"))
            && (List.length (split (trim s) EQUALS) <=? 2)%nat); [|reflexivity].
  destruct (proj1 T eq_refl) as [H1 H2].
  destruct H as [H|H]; [tauto | lia].
Qed.

(** C3, as stated, fails: a bare token is wrapped, and the wrapped token
    still has no [;] and a single [=], so it is wrapped once more. *)
Lemma formatSessionKeyCookie_not_idempotent :
  formatSessionKeyCookie (formatSessionKeyCookie (lit "abc"))
  <> formatSessionKeyCookie (lit "abc").
Proof. vm_compute. discriminate. Qed.

(** The wrapping branch of [formatSessionKeyCookie]. *)
Lemma formatSessionKeyCookie_wrapped (s : jsstring) :
  ~ In SEMICOLON (trim s) ->
  (count_occ N.eq_dec (trim s) EQUALS <= 1)%nat ->
  formatSessionKeyCookie s = lit "sessionKey=" ++ trim s.
Proof.
  intros H1 H2. unfold formatSessionKeyCookie. cbv zeta.
  now rewrite (proj2 (bare_token_test (trim s)) (conj H1 H2)).
Qed.

Lemma trimEnd_cons_fixed (c : codeunit) (x : jsstring) :
  isWhiteSpace c = false -> trimEnd x = x -> trimEnd (c :: x) = c :: x.
Proof.
  intros W H. simpl. rewrite H.
  destruct x; [now rewrite W | reflexivity].
Qed.

(** A wrapped credential has nothing left to trim. *)
Lemma trim_wrapped (s : jsstring) :
  trim (lit "sessionKey=" ++ trim s) = lit "sessionKey=" ++ trim s.
Proof.
  assert (H : trimEnd (trim s) = trim s) by apply trimEnd_idem.
  unfold trim at 1.
  change (lit "sessionKey=" ++ trim s)
    with (115 :: 101 :: 115 :: 115 :: 105 :: 111 :: 110 :: 75 :: 101 :: 121
          :: 61 :: trim s)%N.
  rewrite trimStart_fixed by reflexivity.
  repeat (apply trimEnd_cons_fixed; [reflexivity|]).
  exact H.
Qed.

Lemma wrapped_semicolon (t : jsstring) :
  In SEMICOLON (lit "sessionKey=" ++ t) <-> In SEMICOLON t.
Proof.
  rewrite in_app_iff. split; [|tauto].
  intros [H|H]; [|exact H].
  cbn in H. repeat (destruct H as [H|H]; [discriminate H|]). destruct H.
Qed.

Lemma wrapped_equals (t : jsstring) :
  count_occ N.eq_dec (lit "sessionKey=" ++ t) EQUALS
  = S (count_occ N.eq_dec t EQUALS).
Proof. now rewrite count_occ_app. Qed.

(** C3, amended.  [formatSessionKeyCookie] is idempotent at exactly the
    inputs whose trimmed form contains a [;] or at least one [=]: there a
    second application gives back the first result, and at every other
    input -- a bare token without [=] -- it wraps once more. *)
Theorem formatSessionKeyCookie_idempotent_iff (s : jsstring) :
  formatSessionKeyCookie (formatSessionKeyCookie s) = formatSessionKeyCookie s
  <-> In SEMICOLON (trim s) \/ In EQUALS (trim s).
Proof.
  destruct (in_dec N.eq_dec SEMICOLON (trim s)) as [Hs|Hs].
  { split; [tauto|]. intros _.
    rewrite (formatSessionKeyCookie_passthrough s) by tauto.
    rewrite (formatSessionKeyCookie_passthrough (trim s))
      by (rewrite trim_idem; tauto).
    apply trim_idem. }
  destruct (le_lt_dec (count_occ N.eq_dec (trim s) EQUALS) 1) as [Hc|Hc].
  2:{ split.
      - intros _. right. apply (count_occ_In N.eq_dec). lia.
      - intros _.
        rewrite (formatSessionKeyCookie_passthrough s) by tauto.
        rewrite (formatSessionKeyCookie_passthrough (trim s))
          by (rewrite trim_idem; tauto).
        apply trim_idem. }
  rewrite (formatSessionKeyCookie_wrapped s Hs Hc).
  destruct (count_occ N.eq_dec (trim s) EQUALS) as [|[|n]] eqn:E; [| |lia].
  - (* no [=]: wrapped a second time *)
    rewrite formatSessionKeyCookie_wrapped.
    + rewrite trim_wrapped. split.
      * intros H. apply (f_equal (@List.length _)) in H.
        rewrite !length_app in H. cbn in H. lia.
      * intros [H|H]; [tauto|].
        apply (count_occ_In N.eq_dec) in H. lia.
    + rewrite trim_wrapped. now rewrite wrapped_semicolon.
    + rewrite trim_wrapped, wrapped_equals. lia.
  - (* one [=]: the wrapped credential has two and is passed through *)
    split.
    + intros _. right. apply (count_occ_In N.eq_dec). lia.
    + intros _. rewrite formatSessionKeyCookie_passthrough.
      * apply trim_wrapped.
      * right. rewrite trim_wrapped, wrapped_equals. lia.
Qed.

(** Idempotence at a name-value pair, which the first application wraps
    and the second passes through. *)
Lemma formatSessionKeyCookie_idempotent_iff_witness :
  formatSessionKeyCookie (formatSessionKeyCookie (lit " a=b "))
  = formatSessionKeyCookie (lit " a=b ").
Proof.
  apply (proj2 (formatSessionKeyCookie_idempotent_iff (lit " a=b "))).
  right. vm_compute. tauto.
Defined.

(** A wrapped bare token is wrapped at most once more: the second result
    has two [=] and is passed through from then on. *)
Example formatSessionKeyCookie_twice :
  formatSessionKeyCookie (formatSessionKeyCookie (lit "abc"))
  = lit "sessionKey=sessionKey=abc".
Proof. reflexivity. Qed.

(* ================================================================= *)
(** ** Facts about the cookie acquirer *)

Lemma takeUntil_excludes (d : codeunit) (s : jsstring) : ~ In d (takeUntil d s).
Proof.
  induction s as [|c s IH]; simpl; [tauto|].
  destruct (cu_eqb c d) eqn:E; simpl; [tauto|].
  apply cu_eqb_neq in E. intros [H|H]; [congruence | tauto].
Qed.

Lemma match_cf_bm_cons (c : codeunit) (rest : jsstring) :
  match_cf_bm (c :: rest) =
  if startsWith (c :: rest) (lit "__cf_bm=") then
    match takeUntil SEMICOLON (skipn 8 (c :: rest)) with
    | [] => match_cf_bm rest
    | v => Some v
    end
  else match_cf_bm rest.
Proof. reflexivity. Qed.

(** What the capture group of [/__cf_bm=([^;]+)/] can hold. *)
Lemma match_cf_bm_capture (cookie v : jsstring) :
  match_cf_bm cookie = Some v -> v <> [] /\ ~ In SEMICOLON v.
Proof.
  induction cookie as [|c rest IH]; [discriminate|].
  rewrite match_cf_bm_cons.
  destruct (startsWith (c :: rest) (lit "__cf_bm=")); [|exact IH].
  pose proof (takeUntil_excludes SEMICOLON (skipn 8 (c :: rest))) as Hex.
  destruct (takeUntil SEMICOLON (skipn 8 (c :: rest))) as [|x xs]; [exact IH|].
  intros [= <-]. split; [discriminate | exact Hex].
Qed.

Lemma first_cf_bm_pair (cookies : list jsstring) (k : jsstring) :
  first_cf_bm cookies = Some k -> cf_bm_pair k.
Proof.
  induction cookies as [|x xs IH]; simpl; [discriminate|].
  destruct (match_cf_bm x) as [v|] eqn:E; [|exact IH].
  intros [= <-]. exists v. split; [reflexivity|].
  now apply match_cf_bm_capture with x.
Qed.

(** The cookie loop issues no request; it either finds nothing and touches
    nothing, or stores the pair with the expiry five minutes ahead and
    returns it. *)
Lemma scan_cookies_run (now : Z) (cookies : list jsstring) (c : Cache) :
  scan_cookies now cookies c
  = (Return (first_cf_bm cookies), cache_with now (first_cf_bm cookies) c, []).
Proof.
  induction cookies as [|x xs IH]; simpl; [reflexivity|].
  destruct (match_cf_bm x) as [v|] eqn:E; [reflexivity | exact IH].
Qed.

Ltac run_acquirer :=
  unfold fetchCfBmCookie, bind, try_catch, await, ret,
    get_cfBmCookie, get_cfBmCookieExpiry; cbv beta iota zeta.

Ltac finish_miss :=
  let c := fresh "c" in let Hc := fresh "Hc" in
  split; [|split];
  [ try (intros ? [=]; fail); intros ?; apply first_cf_bm_pair
  | cbv beta iota; repeat split
  | intros c Hc; unfold cache_hit in Hc; run_acquirer; rewrite Hc;
    repeat match goal with H : _ = _ |- _ => rewrite H end;
    repeat (progress (cbn [negb]; cbv beta iota zeta;
                      rewrite ?scan_cookies_run));
    reflexivity ].

Lemma fetchCfBmCookie_hit (w : World) (sessionKey : jsstring) (c : Cache) :
  cache_hit w c = true ->
  fetchCfBmCookie w sessionKey c = (Return (cfBmCookie c), c, []).
Proof.
  intros H. unfold cache_hit in H. run_acquirer. now rewrite H.
Qed.

(** On a miss the result and the requests issued are decided by the world
    and the credential alone; strategy A is always the first request. *)
Lemma fetchCfBmCookie_miss (w : World) (sessionKey : jsstring) :
  exists (found : option jsstring) (more : list Call),
    (forall k, found = Some k -> cf_bm_pair k)
    /\ match strategyA w sessionKey with
       | Return _ => more = []
       | Throw e =>
           if includes (message e) (lit "Timeout")
           then found = None /\ more = []
           else more = [callB]
       end
    /\ forall c, cache_hit w c = false ->
         fetchCfBmCookie w sessionKey c
         = (Return found, cache_with (Date_now w) found c, callA :: more).
Proof.
  destruct (strategyA w sessionKey) as [resp|e] eqn:EA;
    unfold strategyA, priming_headers in EA.
  - destruct (responseHeaders resp (lit "set-cookie")) as [[s|l]|] eqn:EH.
    + destruct (truthy_str s) eqn:ES.
      * exists (first_cf_bm [s]), []. finish_miss.
      * exists None, []. finish_miss.
    + exists (first_cf_bm l), []. finish_miss.
    + exists None, []. finish_miss.
  - destruct (includes (message e) (lit "Timeout")) eqn:ET.
    + exists None, []. finish_miss.
    + destruct (abort_after_timeout
                  (global_fetch w API_BASE_URL
                     (getStandardHeaders (formatSessionKeyCookie sessionKey))))
        as [response|e2] eqn:EB.
      * destruct (headers_get response (lit "set-cookie")) as [h|] eqn:EH.
        -- destruct (truthy_str h) eqn:ES.
           ++ exists (first_cf_bm (map trim (split h COMMA))), [callB].
              finish_miss.
           ++ exists None, [callB]. finish_miss.
        -- exists None, [callB]. finish_miss.
      * exists None, [callB]. finish_miss.
Qed.

(** C6. [fetchCfBmCookie] never throws: whatever the cache and the world,
    it completes normally with a cookie or with null.  When strategy A
    (undici) fails with a timeout -- the 10 s timer wins the race, or more
    generally the error's message contains ["Timeout"], which is how the
    code recognises one -- the result is null and strategy B (fetch) is not
    attempted; when strategy A fails with any other message, strategy B is
    attempted. *)
Theorem fetchCfBmCookie_total_and_fallback
  (w : World) (sessionKey : jsstring) (c : Cache) :
  (exists v, outcome (fetchCfBmCookie w sessionKey c) = Return v)
  /\ (cache_hit w c = false ->
      (forall late,
          undici_request w API_BASE_URL (priming_headers sessionKey) = After late ->
          fetchCfBmCookie w sessionKey c = (Return None, c, [callA]))
      /\ (forall e,
             strategyA w sessionKey = Throw e ->
             includes (message e) (lit "Timeout") = true ->
             fetchCfBmCookie w sessionKey c = (Return None, c, [callA]))
      /\ (forall e,
             strategyA w sessionKey = Throw e ->
             includes (message e) (lit "Timeout") = false ->
             calls (fetchCfBmCookie w sessionKey c) = [callA; callB])).
Proof.
  destruct (fetchCfBmCookie_miss w sessionKey) as (found & more & _ & HA & Hrun).
  split.
  - destruct (cache_hit w c) eqn:Hc.
    + rewrite (fetchCfBmCookie_hit w sessionKey c Hc). now eexists.
    + rewrite (Hrun c Hc). now eexists.
  - intros Hc. rewrite (Hrun c Hc).
    assert (Ht : forall e, strategyA w sessionKey = Throw e ->
                   includes (message e) (lit "Timeout") = true ->
                   (Return found, cache_with (Date_now w) found c, callA :: more)
                   = (Return None, c, [callA])).
    { intros e He Ht. rewrite He, Ht in HA. destruct HA as [-> ->]. reflexivity. }
    split; [|split].
    + intros late Hlate.
      apply (Ht (new_Error (lit "Timeout fetching __cf_bm cookie"))).
      * unfold strategyA. now rewrite Hlate.
      * reflexivity.
    + exact Ht.
    + intros e He Ht'. rewrite He, Ht' in HA. now rewrite HA.
Qed.

Lemma cf_bm_pair_truthy (k : jsstring) : cf_bm_pair k -> truthy_str k = true.
Proof. intros (v & -> & _). reflexivity. Qed.

(** C10. Frame condition of the cache.  A call of [fetchCfBmCookie] that
    returns null leaves [cfBmCookie] and [cfBmCookieExpiry] exactly as they
    were; the cache changes only when a [__cf_bm] value was extracted, and
    then it holds the returned pair with the expiry five minutes after the
    call's clock reading; every value stored in [cfBmCookie] has the form
    ["__cf_bm=" ++ v] with [v] non-empty and free of [;]. *)
Theorem fetchCfBmCookie_frame (w : World) (sessionKey : jsstring) (c : Cache) :
  let r := fetchCfBmCookie w sessionKey c in
  (outcome r = Return None -> cache_after r = c)
  /\ (cache_after r <> c ->
      exists k, cf_bm_pair k
        /\ outcome r = Return (Some k)
        /\ cache_after r
           = mkCache (Some k) (Date_now w + CF_BM_COOKIE_CACHE_TTL_MS))
  /\ ((forall k, cfBmCookie c = Some k -> cf_bm_pair k) ->
      forall k, cfBmCookie (cache_after r) = Some k -> cf_bm_pair k).
Proof.
  cbv zeta.
  destruct (cache_hit w c) eqn:Hc.
  - rewrite (fetchCfBmCookie_hit w sessionKey c Hc). cbn.
    repeat split; [tauto | auto].
  - destruct (fetchCfBmCookie_miss w sessionKey) as (found & more & Hpair & _ & Hrun).
    rewrite (Hrun c Hc). cbn.
    destruct found as [k|]; cbn.
    + pose proof (Hpair k eq_refl) as Hk.
      repeat split.
      * discriminate.
      * intros _. exists k. auto.
      * intros _ k' [= <-]. exact Hk.
    + repeat split; [tauto | auto].
Qed.

(** C5. TTL semantics of the cookie cache.  After a call at time [t0] has
    extracted and stored a cookie, the expiry is [t0] plus five minutes;
    every later call whose clock reads less than that returns the stored
    cookie without issuing a request, and every call whose clock reads that
    or more behaves as on an empty cache: it issues the priming request
    anew and its result and requests are those of a call on an empty slot.
    A cookie is returned from the cache (no request issued) only when the
    clock reads less than the expiry. *)
Theorem cookie_cache_ttl
  (w0 : World) (sessionKey0 : jsstring) (c0 : Cache) (cookie : jsstring) :
  cache_hit w0 c0 = false ->
  outcome (fetchCfBmCookie w0 sessionKey0 c0) = Return (Some cookie) ->
  let t0 := Date_now w0 in
  let c1 := cache_after (fetchCfBmCookie w0 sessionKey0 c0) in
  CF_BM_COOKIE_CACHE_TTL_MS = 300000
  /\ c1 = mkCache (Some cookie) (t0 + CF_BM_COOKIE_CACHE_TTL_MS)
  /\ (forall w sessionKey,
        (Date_now w < t0 + CF_BM_COOKIE_CACHE_TTL_MS ->
         fetchCfBmCookie w sessionKey c1 = (Return (Some cookie), c1, []))
        /\ (t0 + CF_BM_COOKIE_CACHE_TTL_MS <= Date_now w ->
            outcome (fetchCfBmCookie w sessionKey c1)
            = outcome (fetchCfBmCookie w sessionKey initial_cache)
            /\ calls (fetchCfBmCookie w sessionKey c1)
               = calls (fetchCfBmCookie w sessionKey initial_cache)
            /\ exists more,
                 calls (fetchCfBmCookie w sessionKey c1) = callA :: more))
  /\ (forall w sessionKey c v c',
        fetchCfBmCookie w sessionKey c = (Return (Some v), c', []) ->
        cfBmCookie c = Some v /\ Date_now w < cfBmCookieExpiry c).
Proof.
  intros Hmiss Hout t0 c1.
  destruct (fetchCfBmCookie_miss w0 sessionKey0) as (found & more & Hpair & _ & Hrun).
  subst c1 t0. rewrite (Hrun c0 Hmiss) in *.
  unfold outcome, cache_after, calls in *. cbn [fst snd] in *.
  injection Hout as ->. cbn [cache_with].
  set (t0 := Date_now w0).
  pose proof (cf_bm_pair_truthy cookie (Hpair cookie eq_refl)) as Htruthy.
  split; [reflexivity|]. split; [reflexivity|]. split.
  - intros w sessionKey. split.
    + intros Hlt.
      apply (fetchCfBmCookie_hit w sessionKey (stored t0 cookie)).
      unfold cache_hit; cbn. rewrite Htruthy. now apply Z.ltb_lt.
    + intros Hge.
      destruct (fetchCfBmCookie_miss w sessionKey) as (f' & m' & _ & _ & Hrun').
      rewrite (Hrun' (stored t0 cookie)), (Hrun' initial_cache).
      * cbn [fst snd]. eauto.
      * reflexivity.
      * unfold cache_hit; cbn. rewrite Htruthy. now apply Z.ltb_ge.
  - intros w sessionKey c v c' Hr.
    destruct (cache_hit w c) eqn:Hc.
    + rewrite (fetchCfBmCookie_hit w sessionKey c Hc) in Hr.
      injection Hr as Hv _. split; [exact Hv|].
      unfold cache_hit in Hc. apply andb_true_iff in Hc.
      now apply Z.ltb_lt.
    + destruct (fetchCfBmCookie_miss w sessionKey) as (f' & m' & _ & _ & Hrun').
      rewrite (Hrun' c Hc) in Hr. discriminate.
Qed.

(* ================================================================= *)
(** ** Facts about the request dispatcher *)

Ltac run_method :=
  intros c;
  unfold result1, result2, result3, calls1, method1, method2, method3,
    outcome, calls, bind, await, settle, eval, throw, ret;
  cbv beta iota zeta;
  repeat match goal with
         | |- context [match ?x with _ => _ end] =>
             lazymatch x with
             | context [match _ with _ => _ end] => fail
             | _ => destruct x
             end; cbn [fst snd app]
         end;
  reflexivity.

Lemma method1_performs (w : World) (url : jsstring) (h : Headers) :
  performs (method1 w url h) (result1 w url h) (calls1 w url h).
Proof. run_method. Qed.

Lemma method2_performs (w : World) (url : jsstring) (h : Headers) :
  performs (method2 w url h) (result2 w url h) [mkCall Undici url].
Proof. run_method. Qed.

Lemma method3_performs (w : World) (url : jsstring) (h : Headers) :
  performs (method3 w url h) (result3 w url h) [mkCall Axios url].
Proof. run_method. Qed.

(** The first method calls [fetch] exactly when every header was
    accepted; otherwise it fails with the error of the refused append. *)
Lemma calls1_accepted (w : World) (url : jsstring) (h : Headers) :
  append_all w h = Return tt -> calls1 w url h = [mkCall Fetch url].
Proof.
  intros H. unfold calls1, method1, calls, bind, eval, await.
  cbv beta iota zeta. rewrite H. cbn [fst snd].
  destruct (settled (global_fetch w url h)) as [r|e]; [|reflexivity].
  cbn [fst snd]. unfold settle, throw, ret.
  destruct (negb (ok r)); [destruct (text r) | destruct (json r)]; reflexivity.
Qed.

Lemma calls1_refused (w : World) (url : jsstring) (h : Headers) (e : Error) :
  append_all w h = Throw e ->
  calls1 w url h = [] /\ result1 w url h = Throw e.
Proof.
  intros H. unfold calls1, result1, method1, calls, outcome, bind, eval.
  cbv beta iota zeta. now rewrite H.
Qed.

Lemma calls1_cases (w : World) (url : jsstring) (h : Headers) :
  calls1 w url h = [] \/ calls1 w url h = [mkCall Fetch url].
Proof.
  destruct (append_all w h) as [[]|e] eqn:E.
  - right. now apply calls1_accepted.
  - left. now apply (calls1_refused w url h e).
Qed.

Lemma usage_calls_1 (w : World) (url : jsstring) (h : Headers) :
  usage_calls w url h 1 = calls1 w url h.
Proof. unfold usage_calls. cbn. apply app_nil_r. Qed.

Lemma usage_calls_2 (w : World) (url : jsstring) (h : Headers) :
  usage_calls w url h 2 = calls1 w url h ++ [mkCall Undici url].
Proof. reflexivity. Qed.

Lemma usage_calls_3 (w : World) (url : jsstring) (h : Headers) :
  usage_calls w url h 3
  = calls1 w url h ++ [mkCall Undici url; mkCall Axios url].
Proof. reflexivity. Qed.

(** With every header accepted, the calls are those of the plain list. *)
Lemma usage_calls_accepted (w : World) (url : jsstring) (h : Headers) (n : nat) :
  append_all w h = Return tt ->
  usage_calls w url h n = firstn n (strategies url).
Proof.
  intros H. unfold usage_calls, strategies.
  rewrite (calls1_accepted w url h H).
  destruct n as [|[|[|[|n]]]]; reflexivity.
Qed.

Lemma fetchCfBmCookie_returns (w : World) (sessionKey : jsstring) (c : Cache) :
  exists v, outcome (fetchCfBmCookie w sessionKey c) = Return v.
Proof.
  destruct (fetchCfBmCookie_miss w sessionKey) as (found & more & _ & _ & Hrun).
  destruct (cache_hit w c) eqn:Hc.
  - rewrite (fetchCfBmCookie_hit w sessionKey c Hc). now eexists.
  - rewrite (Hrun c Hc). now eexists.
Qed.

Section Loop.

Variables (m : M Value) (cs : list Call) (rest : list (M Value)).
Variables (last : option Error) (c : Cache).

Lemma try_methods_return (d : Value) :
  performs m (Return d) cs ->
  try_methods (m :: rest) last c = (Return (Returned d), c, cs).
Proof.
  intros Hm. cbn [try_methods]. unfold try_catch, bind. rewrite (Hm c).
  unfold ret. cbv beta iota zeta. now rewrite app_nil_r.
Qed.

Lemma try_methods_rethrow (e : Error) :
  performs m (Throw e) cs -> retryable e = false ->
  try_methods (m :: rest) last c = (Throw e, c, cs).
Proof.
  intros Hm Hr. cbn [try_methods]. unfold try_catch, bind. rewrite (Hm c).
  unfold retryable in Hr. cbv zeta in Hr. apply orb_false_iff in Hr.
  destruct Hr as [H1 H2]. apply negb_false_iff in H2.
  cbv zeta. rewrite H1, H2. unfold throw. cbn [negb]. cbv beta iota zeta.
  now rewrite app_nil_r.
Qed.

Lemma try_methods_continue (e : Error) :
  performs m (Throw e) cs -> retryable e = true ->
  try_methods (m :: rest) last c
  = let '(r, c2, t2) := try_methods rest (Some e) c in (r, c2, cs ++ t2).
Proof.
  intros Hm Hr. cbn [try_methods]. unfold try_catch, bind. rewrite (Hm c).
  unfold retryable in Hr. cbv zeta in Hr. cbv zeta.
  destruct (is_challenge (or_else (message e) (String_of_Error e))).
  - reflexivity.
  - cbn [orb] in Hr. rewrite Hr. reflexivity.
Qed.

End Loop.

(** An organization code [encodeURIComponent] refuses ends [fetchUsage]
    at its first statement: nothing is requested, nothing is cached. *)
Lemma fetchUsage_malformed
  (w : World) (org sessionKey : jsstring) (c : Cache) (e : Error) :
  encodeURIComponent w org = Throw e ->
  fetchUsage w org sessionKey c = (Throw e, c, []).
Proof.
  intros H. unfold fetchUsage, bind, eval. now rewrite H.
Qed.

Lemma fetchUsage_run
  (w : World) (org encoded sessionKey : jsstring) (c : Cache) :
  encodeURIComponent w org = Return encoded ->
  let p := fetchCfBmCookie w sessionKey c in
  let l := try_methods (the_methods w (usage_url encoded) sessionKey c) None
             (cache_after p) in
  fetchUsage w org sessionKey c
  = (finish (outcome l), cache_after l, calls p ++ calls l).
Proof.
  intros Henc. cbv zeta.
  unfold the_methods, request_headers, acquired, fetchUsage.
  unfold bind at 1. unfold eval. rewrite Henc. cbv beta iota zeta.
  unfold bind. cbn [app].
  destruct (fetchCfBmCookie_returns w sessionKey c) as [v Hv].
  destruct (fetchCfBmCookie w sessionKey c) as [[o c1] t1].
  unfold outcome, cache_after, calls in *. cbn [fst snd] in *. subst o.
  cbv zeta.
  destruct (try_methods _ None c1) as [[[[d|lastError]|e] c2] t2];
    cbn [fst snd finish ret throw]; rewrite ?app_nil_r; reflexivity.
Qed.

(** The whole decision tree of [fetchUsage] over what its three strategies
    complete with. *)
Lemma fetchUsage_cases
  (w : World) (org encoded sessionKey : jsstring) (c : Cache) :
  encodeURIComponent w org = Return encoded ->
  let p := fetchCfBmCookie w sessionKey c in
  let url := usage_url encoded in
  let h := request_headers w sessionKey c in
  let done o n := (o, cache_after p, calls p ++ usage_calls w url h n) in
  fetchUsage w org sessionKey c =
  match result1 w url h with
  | Return d => done (Return d) 1%nat
  | Throw e1 =>
      if retryable e1 then
        match result2 w url h with
        | Return d => done (Return d) 2%nat
        | Throw e2 =>
            if retryable e2 then
              match result3 w url h with
              | Return d => done (Return d) 3%nat
              | Throw e3 =>
                  if retryable e3
                  then done (Throw (exhausted_error (Some e3))) 3%nat
                  else done (Throw e3) 3%nat
              end
            else done (Throw e2) 2%nat
        end
      else done (Throw e1) 1%nat
  end.
Proof.
  intros Henc. cbv zeta. rewrite (fetchUsage_run w org encoded sessionKey c Henc).
  cbv zeta. unfold the_methods.
  rewrite usage_calls_1, usage_calls_2, usage_calls_3.
  set (url := usage_url encoded).
  set (h := request_headers w sessionKey c).
  set (c1 := cache_after (fetchCfBmCookie w sessionKey c)).
  pose proof (method1_performs w url h) as P1.
  pose proof (method2_performs w url h) as P2.
  pose proof (method3_performs w url h) as P3.
  destruct (result1 w url h) as [d1|e1].
  { now rewrite (try_methods_return _ _ _ _ _ _ P1). }
  destruct (retryable e1) eqn:R1.
  2:{ now rewrite (try_methods_rethrow _ _ _ _ _ _ P1 R1). }
  rewrite (try_methods_continue _ _ _ _ _ _ P1 R1).
  destruct (result2 w url h) as [d2|e2].
  { now rewrite (try_methods_return _ _ _ _ _ _ P2). }
  destruct (retryable e2) eqn:R2.
  2:{ now rewrite (try_methods_rethrow _ _ _ _ _ _ P2 R2). }
  rewrite (try_methods_continue _ _ _ _ _ _ P2 R2).
  destruct (result3 w url h) as [d3|e3].
  { now rewrite (try_methods_return _ _ _ _ _ _ P3). }
  destruct (retryable e3) eqn:R3.
  2:{ now rewrite (try_methods_rethrow _ _ _ _ _ _ P3 R3). }
  rewrite (try_methods_continue _ _ _ _ _ _ P3 R3).
  reflexivity.
Qed.

Lemma is_challenge_nonempty (m : jsstring) :
  is_challenge m = true -> truthy_str m = true.
Proof. destruct m; [discriminate | reflexivity]. Qed.

Lemma includes_nonempty (m p : jsstring) :
  p <> [] -> includes m p = true -> truthy_str m = true.
Proof.
  intros Hp. destruct m; [|reflexivity].
  destruct p; [congruence | discriminate].
Qed.

Lemma challenge_retryable (e : Error) :
  is_challenge (message e) = true -> retryable e = true.
Proof.
  intros H. unfold retryable, or_else. cbv zeta.
  now rewrite (is_challenge_nonempty _ H), H.
Qed.

Lemma genuine_http_not_retryable (e : Error) :
  includes (message e) (lit "HTTP") = true ->
  is_challenge (message e) = false ->
  retryable e = false.
Proof.
  intros H1 H2. unfold retryable, or_else. cbv zeta.
  rewrite (includes_nonempty (message e) (lit "HTTP")); [|discriminate|exact H1].
  now rewrite H1, H2.
Qed.






Lemma includes_prefix (s p : jsstring) : includes (p ++ s) p = true.
Proof.
  assert (H : forall t, startsWith (p ++ t) p = true).
  { induction p as [|a p IH]; intros t; cbn; [reflexivity|].
    unfold cu_eqb. now rewrite N.eqb_refl, IH. }
  destruct p as [|a p]; [destruct s; reflexivity|].
  specialize (H s). cbn [app includes] in *. now rewrite H.
Qed.

Lemma includes_app_r (a b p : jsstring) :
  includes b p = true -> includes (a ++ b) p = true.
Proof.
  intros H. induction a as [|x a IH]; [exact H|].
  cbn [app includes]. rewrite IH. apply orb_true_r.
Qed.

(** C2. A failure whose message contains ["HTTP"] and none of the
    bot-challenge markers (so its status is not 403) is rethrown at once:
    it is the outcome of the whole invocation, and the strategies after the
    one that failed are not invoked: the client calls are those of the
    strategies up to it.  In particular an HTTP 404 from the first strategy
    is returned with only the first request issued.  (The URL has been
    built: a strategy has run.) *)
Theorem fetchUsage_genuine_http_error_surfaces
  (w : World) (org encoded sessionKey : jsstring) (c : Cache) :
  encodeURIComponent w org = Return encoded ->
  let p := fetchCfBmCookie w sessionKey c in
  let url := usage_url encoded in
  let h := request_headers w sessionKey c in
  let run := fetchUsage w org sessionKey c in
  let genuine e :=
    includes (message e) (lit "HTTP") = true /\ is_challenge (message e) = false in
  (forall e, result1 w url h = Throw e -> genuine e ->
     run = (Throw e, cache_after p, calls p ++ usage_calls w url h 1))
  /\ (forall e1 e, result1 w url h = Throw e1 -> retryable e1 = true ->
        result2 w url h = Throw e -> genuine e ->
        run = (Throw e, cache_after p, calls p ++ usage_calls w url h 2))
  /\ (forall e1 e2 e, result1 w url h = Throw e1 -> retryable e1 = true ->
        result2 w url h = Throw e2 -> retryable e2 = true ->
        result3 w url h = Throw e -> genuine e ->
        run = (Throw e, cache_after p, calls p ++ usage_calls w url h 3))
  /\ (forall response body,
        append_all w h = Return tt ->
        settled (global_fetch w url h) = Return response ->
        status response = 404 -> text response = Return body ->
        is_challenge (message (http_error 404 body)) = false ->
        run = (Throw (http_error 404 body), cache_after p,
               calls p ++ [mkCall Fetch url])).
Proof.
  intros Henc. cbv zeta.
  rewrite (fetchUsage_cases w org encoded sessionKey c Henc). cbv zeta.
  set (url := usage_url encoded).
  set (h := request_headers w sessionKey c).
  repeat split.
  - intros e -> [H1 H2]. now rewrite (genuine_http_not_retryable e H1 H2).
  - intros e1 e -> -> -> [H1 H2]. now rewrite (genuine_http_not_retryable e H1 H2).
  - intros e1 e2 e -> -> -> -> -> [H1 H2].
    now rewrite (genuine_http_not_retryable e H1 H2).
  - intros response body Ha Hr Hs Ht Hc.
    assert (E : result1 w url h = Throw (http_error 404 body)).
    { unfold result1, method1, outcome, bind, eval, await, settle, throw.
      cbv beta iota zeta. rewrite Ha. cbv beta iota zeta.
      rewrite Hr. cbn [fst snd].
      unfold ok. rewrite Hs, Ht. reflexivity. }
    rewrite E, usage_calls_1, (calls1_accepted w url h Ha).
    rewrite (genuine_http_not_retryable (http_error 404 body)); [reflexivity| |exact Hc].
    reflexivity.
Qed.

Lemma exhausted_error_challenge (e : Error) :
  is_challenge (message e) = true ->
  exhausted_error (Some e) = new_Error (message e ++ cloudflare_help).
Proof.
  intros H. unfold exhausted_error, or_else. cbv zeta.
  now rewrite (is_challenge_nonempty _ H), H.
Qed.

(** C7. When all three strategies have been tried and have failed, and the
    text of the last error carries a bot-challenge marker, the one failure
    [fetchUsage] throws has the last error's message followed by the
    remediation block: the Cloudflare hypothesis and the three remediation
    steps.  (The URL has been built: the strategies have run.) *)
Theorem fetchUsage_exhausted_challenge_has_remediation
  (w : World) (org encoded sessionKey : jsstring) (c : Cache)
  (e1 e2 e3 : Error) :
  encodeURIComponent w org = Return encoded ->
  let p := fetchCfBmCookie w sessionKey c in
  let url := usage_url encoded in
  let h := request_headers w sessionKey c in
  result1 w url h = Throw e1 -> retryable e1 = true ->
  result2 w url h = Throw e2 -> retryable e2 = true ->
  result3 w url h = Throw e3 -> is_challenge (message e3) = true ->
  let msg := message e3 ++ cloudflare_help in
  fetchUsage w org sessionKey c
  = (Throw (new_Error msg), cache_after p, calls p ++ usage_calls w url h 3)
  /\ includes msg cloudflare_help = true
  /\ includes msg (lit "Cloudflare bot protection detected.") = true
  /\ includes msg (lit "Cloudflare blocks automated requests based on TLS fingerprinting.") = true
  /\ includes msg (lit "1. Use a fresh Cookie header from Postman") = true
  /\ includes msg (lit "2. Use a proxy service that can handle Cloudflare challenges") = true
  /\ includes msg (lit "3. Contact Claude.ai to request API access or whitelisting") = true.
Proof.
  intros Henc p url h E1 R1 E2 R2 E3 H3 msg.
  split.
  - subst p url h msg.
    rewrite (fetchUsage_cases w org encoded sessionKey c Henc). cbv zeta.
    rewrite E1, R1, E2, R2, E3, (challenge_retryable e3 H3).
    now rewrite (exhausted_error_challenge e3 H3).
  - subst msg. repeat split; apply includes_app_r; vm_compute; reflexivity.
Qed.

Lemma includes_repeat (x : codeunit) (n : nat) (p : jsstring) :
  match p with [] => False | a :: _ => a <> x end ->
  includes (repeat x n) p = false.
Proof.
  destruct p as [|a p]; [tauto|]. intros Ha.
  apply cu_eqb_neq in Ha.
  induction n as [|n IH]; cbn; [reflexivity|].
  now rewrite Ha, IH.
Qed.

Lemma substring0_length (s : jsstring) (n : nat) :
  (List.length (substring0 s n) <= n)%nat.
Proof. unfold substring0. rewrite length_firstn. lia. Qed.

(** The end-to-end scenario of the specification: the first strategy
    answers with a utilization of 42.4 and the status bar shows 58% left. *)
Example end_to_end_success :
  outcome (refreshAndRender (Samples.w_first_succeeds Samples.usage_body)
             Samples.settings initial_cache)
  = Return (usage_status (Samples.w_first_succeeds Samples.usage_body)
              Samples.settings (Finite (424 # 10)) (VString Samples.iso))
  /\ status_text
       (usage_status (Samples.w_first_succeeds Samples.usage_body)
          Samples.settings (Finite (424 # 10)) (VString Samples.iso))
     = lit "$(pulse) Claude 58% left".
Proof. split; vm_compute; reflexivity. Qed.

Example third_strategy_result :
  fetchUsage Samples.w_third_succeeds Samples.org Samples.credential initial_cache
  = (Return Samples.usage_body, initial_cache,
     callA :: strategies (usage_url Samples.org)).
Proof. vm_compute. reflexivity. Qed.

Example not_found_aborts :
  fetchUsage Samples.w_not_found Samples.org Samples.credential initial_cache
  = (Throw (new_Error (lit "HTTP 404: Not Found")), initial_cache,
     [callA; mkCall Fetch (usage_url Samples.org)]).
Proof. vm_compute. reflexivity. Qed.

(** An organization code with a lone surrogate: [fetchUsage] throws the
    URIError at once and nothing is requested. *)
Example malformed_org_throws_at_once :
  fetchUsage Samples.w_third_succeeds Samples.org_malformed Samples.credential
    initial_cache
  = (Throw (mkError (lit "URIError") (lit "URI malformed")), initial_cache, []).
Proof. vm_compute. reflexivity. Qed.

(** A credential with a line break inside: [Headers.append] refuses the
    cookie, [fetch] is not called, and undici is tried next. *)
Example refused_header_skips_fetch :
  calls (fetchUsage Samples.w_third_succeeds Samples.org
           Samples.credential_with_newline initial_cache)
  = [callA; mkCall Undici (usage_url Samples.org);
     mkCall Axios (usage_url Samples.org)].
Proof. vm_compute. reflexivity. Qed.


(** A 404 from fetch is the outcome, and the only usage request issued. *)
Lemma fetchUsage_genuine_http_error_surfaces_witness :
  fetchUsage Samples.w_not_found Samples.org Samples.credential initial_cache
  = (Throw (http_error 404 (lit "Not Found")),
     cache_after (fetchCfBmCookie Samples.w_not_found Samples.credential
                    initial_cache),
     calls (fetchCfBmCookie Samples.w_not_found Samples.credential initial_cache)
     ++ [mkCall Fetch (usage_url Samples.org)]).
Proof.
  destruct (fetchUsage_genuine_http_error_surfaces Samples.w_not_found
              Samples.org Samples.org Samples.credential initial_cache eq_refl)
    as (_ & _ & _ & H).
  apply (H (mkFetchResponse 404 (Return (lit "Not Found")) Samples.not_json
              Samples.no_headers));
    vm_compute; reflexivity.
Defined.

(** A cookie stored at time 1000 is served from the cache at time 300999. *)
Lemma cookie_cache_ttl_witness :
  fetchCfBmCookie (Samples.w_priming 300999) Samples.credential
    (mkCache (Some (lit "__cf_bm=tok")) 301000)
  = (Return (Some (lit "__cf_bm=tok")),
     mkCache (Some (lit "__cf_bm=tok")) 301000, []).
Proof.
  destruct (cookie_cache_ttl (Samples.w_priming 1000) Samples.credential
              initial_cache (lit "__cf_bm=tok") eq_refl eq_refl)
    as (_ & _ & H & _).
  apply (H (Samples.w_priming 300999) Samples.credential).
  reflexivity.
Defined.

(** A priming request still pending after ten seconds: null, and no fallback. *)
Lemma fetchCfBmCookie_total_and_fallback_witness :
  fetchCfBmCookie Samples.w_third_succeeds Samples.credential initial_cache
  = (Return None, initial_cache, [callA]).
Proof.
  destruct (fetchCfBmCookie_total_and_fallback Samples.w_third_succeeds
              Samples.credential initial_cache) as (_ & H).
  destruct (H eq_refl) as (Hlate & _).
  apply (Hlate (Throw (mkError (lit "Error") (lit "socket hang up")))).
  reflexivity.
Defined.

(** A call that returns null leaves an expired cache entry in place. *)
Lemma fetchCfBmCookie_frame_witness :
  cache_after (fetchCfBmCookie Samples.w_third_succeeds Samples.credential
                 (mkCache (Some (lit "__cf_bm=old")) 10))
  = mkCache (Some (lit "__cf_bm=old")) 10.
Proof.
  destruct (fetchCfBmCookie_frame Samples.w_third_succeeds Samples.credential
              (mkCache (Some (lit "__cf_bm=old")) 10)) as (H & _).
  apply H. reflexivity.
Defined.

(** Three challenge pages: the thrown message carries the remediation block. *)
Lemma fetchUsage_exhausted_challenge_has_remediation_witness :
  includes
    (match outcome (fetchUsage Samples.w_all_challenged Samples.org
                      Samples.credential initial_cache) with
     | Throw e => message e
     | Return _ => []
     end)
    cloudflare_help = true.
Proof.
  destruct (fetchUsage_exhausted_challenge_has_remediation
              Samples.w_all_challenged Samples.org Samples.org
              Samples.credential initial_cache
              (http_error 403 Samples.challenge_page)
              (http_error 403 (lit "{}"))
              (http_error 403 Samples.challenge_page)
              eq_refl eq_refl eq_refl eq_refl eq_refl eq_refl eq_refl)
    as (Hrun & Hblock & _).
  rewrite Hrun. exact Hblock.
Defined.

(* ================================================================= *)
(** ** The synthesized failure and what the user sees of it *)

Lemma exhausted_error_plain (e : Error) :
  truthy_str (message e) = true ->
  is_challenge (message e) = false ->
  exhausted_error (Some e)
  = new_Error (message e ++ substring0 (message e) ERROR_DETAILS_MAX_LENGTH).
Proof.
  intros Ht Hc. unfold exhausted_error, or_else. cbv zeta.
  now rewrite Ht, Hc.
Qed.

(** C8, as stated, fails: the thrown message starts with the last error's
    whole message, which nothing cuts, so no length bounds it.  When every
    client fails below HTTP with a message of [B + 1] characters, the
    synthesized message is longer than [B]. *)
Lemma exhausted_message_not_bounded :
  ~ exists B : nat,
      forall w org sessionKey c e,
        outcome (fetchUsage w org sessionKey c) = Throw e ->
        (List.length (message e) <= B)%nat.
Proof.
  intros [B H].
  set (m := repeat 120%N (S B)).
  set (e := mkError (lit "Error") m).
  assert (Hnc : is_challenge m = false).
  { unfold is_challenge, m.
    rewrite !includes_repeat; [reflexivity | | | |]; vm_compute; discriminate. }
  assert (Hnh : includes m (lit "HTTP") = false).
  { unfold m. apply includes_repeat. vm_compute. discriminate. }
  assert (Hr : retryable e = true).
  { unfold retryable, or_else, e. cbn [message]. cbv zeta.
    change (truthy_str m) with true. cbv iota. now rewrite Hnc, Hnh. }
  specialize (H (Samples.w_usage_down m) Samples.org Samples.credential
                initial_cache (exhausted_error (Some e))).
  rewrite (fetchUsage_cases (Samples.w_usage_down m) Samples.org Samples.org
             Samples.credential initial_cache eq_refl) in H.
  cbv zeta in H.
  change (result1 (Samples.w_usage_down m)
            (usage_url Samples.org)
            (request_headers (Samples.w_usage_down m) Samples.credential
               initial_cache)) with (@Throw Value e) in H.
  change (result2 (Samples.w_usage_down m)
            (usage_url Samples.org)
            (request_headers (Samples.w_usage_down m) Samples.credential
               initial_cache)) with (@Throw Value e) in H.
  change (result3 (Samples.w_usage_down m)
            (usage_url Samples.org)
            (request_headers (Samples.w_usage_down m) Samples.credential
               initial_cache)) with (@Throw Value e) in H.
  cbv iota in H. rewrite !Hr in H. cbv iota in H. specialize (H eq_refl).
  rewrite (exhausted_error_plain e eq_refl Hnc) in H.
  cbn [message new_Error e] in H.
  rewrite length_app in H. unfold m in H at 1. rewrite repeat_length in H.
  lia.
Qed.

(** What reaches the user can hold the credential: a server that echoes
    the [Cookie] header in its 403 page puts it into the tooltip. *)
Example credential_can_be_echoed :
  let echo : World :=
    mkWorld
      (fun _ _ => Samples.priming_late)
      (fun _ _ => Samples.fetch_refused)
      (fun _ h => Samples.axios_reply 403
                    (VString (lit "denied: " ++ match h with
                                                | (_, v) :: _ => v
                                                | [] => []
                                                end)))
      1000 (fun _ => lit "{}") Samples.encode Samples.append Samples.getTime
      (fun _ => []) [] (fun _ => []) in
  match outcome (refreshAndRender echo Samples.settings initial_cache) with
  | Return st => includes (status_tooltip st) Samples.credential = true
  | Throw _ => False
  end.
Proof. vm_compute. reflexivity. Qed.

Lemma safeErrorMessage_length (e : Error) :
  (List.length (safeErrorMessage e) <= 200)%nat.
Proof. apply substring0_length. Qed.

Lemma error_tooltip_length (e : Error) :
  (List.length (status_tooltip (error_status e)) <= 689)%nat.
Proof.
  unfold error_status. cbv zeta. cbn [status_tooltip].
  pose proof (safeErrorMessage_length e) as Hs.
  generalize dependent (safeErrorMessage e). intros s Hs.
  assert (Ht : List.length troubleshooting_403 = 385%nat) by (vm_compute; reflexivity).
  destruct (includes s (lit "403"));
    repeat rewrite length_app; rewrite ?Ht;
    change (List.length (lit "Failed to refresh Claude usage.")) with 31%nat;
    change (List.length (lit "Error: ")) with 7%nat;
    change (List.length (lit "Click to reconfigure or use ")) with 28%nat;
    change (List.length (lit "Claude Usage: Debug Info")) with 24%nat;
    change (List.length (lit " command")) with 8%nat;
    cbn [List.length LF]; lia.
Qed.

(** C8, amended.  When every strategy has been tried and has failed, the
    message [fetchUsage] throws is the last error's message followed by a
    detail: the remediation block in the bot-challenge case, and otherwise
    the first 500 characters at most of that same message.  Its length is
    therefore bounded by the length of the last error's message plus 500,
    and by nothing smaller in general; what the user sees of it is the
    first 200 characters ([safeErrorMessage]) inside a tooltip of at most
    689.  The synthesis adds nothing but the last error's text and the
    fixed block.  (The URL has been built: the strategies have run.) *)
Theorem exhausted_message_structure
  (w : World) (org encoded sessionKey : jsstring) (c : Cache)
  (e1 e2 e3 : Error) :
  encodeURIComponent w org = Return encoded ->
  let url := usage_url encoded in
  let h := request_headers w sessionKey c in
  result1 w url h = Throw e1 -> retryable e1 = true ->
  result2 w url h = Throw e2 -> retryable e2 = true ->
  result3 w url h = Throw e3 -> retryable e3 = true ->
  let m := or_else (message e3) (lit "Unknown error") in
  let detail :=
    if is_challenge m then cloudflare_help
    else substring0 m ERROR_DETAILS_MAX_LENGTH in
  outcome (fetchUsage w org sessionKey c) = Throw (new_Error (m ++ detail))
  /\ (is_challenge m = false ->
      detail = firstn 500 m /\ (List.length detail <= 500)%nat)
  /\ (List.length (m ++ detail) <= List.length m + 500)%nat
  /\ (forall e, (List.length (safeErrorMessage e) <= 200)%nat)
  /\ (forall e, (List.length (status_tooltip (error_status e)) <= 689)%nat).
Proof.
  intros Henc url h E1 R1 E2 R2 E3 R3 m detail.
  assert (Hd : (List.length detail <= 500)%nat).
  { subst detail. destruct (is_challenge m).
    - assert (Hb : List.length cloudflare_help = 440%nat) by (vm_compute; reflexivity).
      lia.
    - apply substring0_length. }
  repeat split.
  - subst url h. rewrite (fetchUsage_cases w org encoded sessionKey c Henc).
    cbv zeta. now rewrite E1, R1, E2, R2, E3, R3.
  - subst detail. now rewrite H.
  - exact Hd.
  - rewrite length_app. lia.
  - apply safeErrorMessage_length.
  - apply error_tooltip_length.
Qed.

(** Three DNS failures: the thrown message is the error text twice over. *)
Lemma exhausted_message_structure_witness :
  outcome (fetchUsage (Samples.w_network_down (lit "getaddrinfo ENOTFOUND claude.ai"))
             Samples.org Samples.credential initial_cache)
  = Throw (new_Error (lit "getaddrinfo ENOTFOUND claude.ai"
                      ++ lit "getaddrinfo ENOTFOUND claude.ai")).
Proof.
  pose (e := mkError (lit "Error") (lit "getaddrinfo ENOTFOUND claude.ai")).
  destruct (exhausted_message_structure
              (Samples.w_network_down (lit "getaddrinfo ENOTFOUND claude.ai"))
              Samples.org Samples.org Samples.credential initial_cache e e e
              eq_refl eq_refl eq_refl eq_refl eq_refl eq_refl eq_refl)
    as (H & _).
  exact H.
Defined.

(* ================================================================= *)
(** ** The shape check of the caller-facing layer *)


(** The same holds of a utilization that is not finite: [1e999] parses to
    Infinity, passes [typeof ... === "number"], and is shown as 0% used. *)
Example infinite_utilization_is_rendered :
  let w := Samples.w_first_succeeds Samples.body_infinite_utilization in
  exists st,
    outcome (refreshAndRender w Samples.settings initial_cache) = Return st
    /\ status_text st = lit "$(pulse) Claude 100% left".
Proof. eexists. split; vm_compute; reflexivity. Qed.


Lemma refreshAndRender_total (w : World) (cfg : Settings) (c : Cache) :
  exists st, outcome (refreshAndRender w cfg c) = Return st.
Proof.
  unfold refreshAndRender. cbv zeta.
  destruct (negb (truthy_str (trim (organizationCode cfg))) || _);
    [now eexists|].
  unfold try_catch, bind.
  destruct (fetchUsage w _ _ c) as [[[data|e] c1] t1]; [|now eexists].
  cbv zeta.
  destruct (negb _ || negb _ || negb _); [now eexists|].
  destruct (get_prop _ (lit "utilization")) as [[| | | | |]|];
    try (now eexists).
  destruct (get_prop _ (lit "resets_at")); now eexists.
Qed.



(* ================================================================= *)
(** ** Further properties: percentages *)

Lemma Math_round_near (q : Q) :
  (q - (1 # 2) < inject_Z (Math_round q) /\ inject_Z (Math_round q) <= q + (1 # 2))%Q.
Proof.
  unfold Math_round.
  pose proof (Qfloor_le (q + (1 # 2))) as Hle.
  pose proof (Qlt_floor (q + (1 # 2))) as Hlt.
  rewrite inject_Z_plus in Hlt.
  change (inject_Z 1) with 1%Q in Hlt.
  split; lra.
Qed.

Lemma Math_round_integer (k : Z) : Math_round (inject_Z k) = k.
Proof.
  pose proof (Math_round_near (inject_Z k)) as [H1 H2].
  set (r := Math_round (inject_Z k)) in *.
  destruct (Z.compare_spec r k) as [E|L|G]; [exact E| |]; exfalso.
  - assert (H : (r + 1 <= k)%Z) by lia.
    rewrite Zle_Qle, inject_Z_plus in H.
    change (inject_Z 1) with 1%Q in H. lra.
  - assert (H : (k + 1 <= r)%Z) by lia.
    rewrite Zle_Qle, inject_Z_plus in H.
    change (inject_Z 1) with 1%Q in H. lra.
Qed.

Lemma Math_round_mono (p q : Q) : (p <= q)%Q -> Math_round p <= Math_round q.
Proof.
  intros H. unfold Math_round. apply Qfloor_resp_le. lra.
Qed.

Lemma clampPercent_range (n : Number) : 0 <= clampPercent n <= 100.
Proof. destruct n; cbn [clampPercent]; lia. Qed.

Lemma clampPercent_integer (k : Z) :
  0 <= k <= 100 -> clampPercent (Finite (inject_Z k)) = k.
Proof. intros Hk. cbn [clampPercent]. rewrite Math_round_integer. lia. Qed.

(** X1. [clampPercent] always yields an integer between 0 and 100.  On a
    finite utilization between 0 and 100 the result is within half a point
    of it; every integer of that range is returned as it is; a finite value
    below one half gives 0 and one from 99.5 on gives 100; and the function
    is monotone on finite values. *)
Theorem clampPercent_rounds_within_range :
  (forall n, 0 <= clampPercent n <= 100)
  /\ (forall q, (0 <= q)%Q -> (q <= 100)%Q ->
        (q - (1 # 2) < inject_Z (clampPercent (Finite q))
         /\ inject_Z (clampPercent (Finite q)) <= q + (1 # 2))%Q)
  /\ (forall k, 0 <= k <= 100 -> clampPercent (Finite (inject_Z k)) = k)
  /\ (forall q, (q < 1 # 2)%Q -> clampPercent (Finite q) = 0)
  /\ (forall q, (199 # 2 <= q)%Q -> clampPercent (Finite q) = 100)
  /\ (forall p q, (p <= q)%Q ->
        clampPercent (Finite p) <= clampPercent (Finite q)).
Proof.
  split; [|split; [|split; [|split; [|split]]]].
  - apply clampPercent_range.
  - intros q H0 H100.
    pose proof (Math_round_near q) as [H1 H2].
    assert (Hr : 0 <= Math_round q <= 100).
    { pose proof (Math_round_mono (inject_Z 0) q H0) as Ha.
      pose proof (Math_round_mono q (inject_Z 100) H100) as Hb.
      rewrite Math_round_integer in Ha, Hb. lia. }
    cbn [clampPercent]. replace (Z.max 0 (Z.min 100 (Math_round q))) with (Math_round q) by lia.
    split; assumption.
  - apply clampPercent_integer.
  - intros q Hq. cbn [clampPercent].
    assert (H : Math_round q <= 0).
    { pose proof (Math_round_near q) as [_ H2].
      destruct (Z_lt_le_dec 0 (Math_round q)) as [L|L]; [|exact L].
      exfalso. assert (H : (0 + 1 <= Math_round q)%Z) by lia.
      rewrite Zle_Qle, inject_Z_plus in H.
      change (inject_Z 0) with 0%Q in H. change (inject_Z 1) with 1%Q in H. lra. }
    lia.
  - intros q Hq. cbn [clampPercent].
    assert (H : 100 <= Math_round q).
    { pose proof (Math_round_near q) as [H1 _].
      destruct (Z_lt_le_dec (Math_round q) 100) as [L|L]; [|lia].
      exfalso. assert (H : (Math_round q + 1 <= 100)%Z) by lia.
      rewrite Zle_Qle, inject_Z_plus in H.
      change (inject_Z 100) with 100%Q in H. change (inject_Z 1) with 1%Q in H.
      lra. }
    lia.
  - intros p q H. cbn [clampPercent]. pose proof (Math_round_mono p q H). lia.
Qed.

Lemma clampPercent_rounds_within_range_witness :
  ((424 # 10) - (1 # 2) < inject_Z (clampPercent (Finite (424 # 10)))
   /\ inject_Z (clampPercent (Finite (424 # 10))) <= (424 # 10) + (1 # 2))%Q.
Proof.
  destruct clampPercent_rounds_within_range as (_ & H & _).
  apply H; unfold Qle; cbn; lia.
Defined.

(** X2. Whatever number the server sent as utilization, the status bar
    shows an integer between 0 and 100, and the used and left figures add
    up to 100: in mode ["left"] the text is the left figure followed by
    ["% left"], in any other mode the used figure followed by ["% used"]. *)
Theorem usage_status_shows_complementary_percentages
  (w : World) (cfg : Settings) (u : Number) (r : Value) :
  let used := clampPercent u in
  let left := 100 - used in
  0 <= used <= 100 /\ 0 <= left <= 100
  /\ status_text (usage_status w cfg u r)
     = lit "$(pulse) Claude "
       ++ (if str_eqb (mode cfg) (lit "left")
           then Z_to_string left ++ lit "% left"
           else Z_to_string used ++ lit "% used")
  /\ status_command (usage_status w cfg u r) = lit "claudeUsage.toggleMode".
Proof.
  cbv zeta.
  pose proof (clampPercent_range u) as Hu.
  repeat split; try lia.
  unfold usage_status. cbv zeta. cbn [status_text].
  rewrite (clampPercent_integer (100 - clampPercent u)) by lia. reflexivity.
Qed.

(* ================================================================= *)
(** ** Further properties: the [__cf_bm] pattern *)

Lemma takeUntil_app (d : codeunit) (v tail : jsstring) :
  ~ In d v -> (tail = [] \/ exists t, tail = d :: t) ->
  takeUntil d (v ++ tail) = v.
Proof.
  intros Hv Ht. induction v as [|c v IH]; cbn [app].
  - destruct Ht as [->|[t ->]]; [reflexivity|].
    cbn. unfold cu_eqb. now rewrite N.eqb_refl.
  - cbn [takeUntil]. destruct (cu_eqb c d) eqn:E.
    + apply cu_eqb_eq in E. subst c. exfalso. apply Hv. now left.
    + rewrite IH; [reflexivity|]. intros H. apply Hv. now right.
Qed.

Lemma includes_cons_false (c : codeunit) (s p : jsstring) :
  includes (c :: s) p = false ->
  startsWith (c :: s) p = false /\ includes s p = false.
Proof. cbn [includes]. apply orb_false_iff. Qed.

(** X3. The pattern [/__cf_bm=([^;]+)/] reads back what the cache stores:
    a string that begins with ["__cf_bm="] followed by a non-empty value
    free of [;], and then ends or goes on with a [;], matches with that
    value as its capture -- in particular the stored pair itself does.  A
    string in which ["__cf_bm="] does not occur does not match. *)
Theorem match_cf_bm_reads_back (v tail : jsstring) :
  v <> [] -> ~ In SEMICOLON v ->
  (tail = [] \/ exists t, tail = SEMICOLON :: t) ->
  match_cf_bm (lit "__cf_bm=" ++ v ++ tail) = Some v
  /\ match_cf_bm (lit "__cf_bm=" ++ v) = Some v
  /\ (forall cookie, includes cookie (lit "__cf_bm=") = false ->
        match_cf_bm cookie = None).
Proof.
  intros Hne Hv Ht.
  assert (Hgen : forall tl, (tl = [] \/ exists t, tl = SEMICOLON :: t) ->
                   match_cf_bm (lit "__cf_bm=" ++ v ++ tl) = Some v).
  { intros tl Htl.
    change (lit "__cf_bm=" ++ v ++ tl)
      with (95 :: 95 :: 99 :: 102 :: 95 :: 98 :: 109 :: 61 :: v ++ tl)%N.
    rewrite match_cf_bm_cons.
    change (startsWith (95 :: 95 :: 99 :: 102 :: 95 :: 98 :: 109 :: 61 :: v ++ tl)%N
              (lit "__cf_bm=")) with true.
    cbv iota.
    change (skipn 8 (95 :: 95 :: 99 :: 102 :: 95 :: 98 :: 109 :: 61 :: v ++ tl)%N)
      with (v ++ tl).
    rewrite (takeUntil_app SEMICOLON v tl Hv Htl).
    destruct v; [congruence | reflexivity]. }
  split; [exact (Hgen tail Ht)|]. split.
  - rewrite <- (app_nil_r v) at 1. apply Hgen. now left.
  - intros cookie. induction cookie as [|c rest IH]; [reflexivity|].
    intros H. apply includes_cons_false in H. destruct H as [H1 H2].
    rewrite match_cf_bm_cons, H1. now apply IH.
Qed.

Lemma match_cf_bm_reads_back_witness :
  match_cf_bm (lit "__cf_bm=tok; Path=/; HttpOnly") = Some (lit "tok").
Proof.
  apply (proj1 (match_cf_bm_reads_back (lit "tok") (lit "; Path=/; HttpOnly")
                  ltac:(discriminate)
                  ltac:(vm_compute; intuition discriminate)
                  ltac:(right; eexists; reflexivity))).
Defined.

(* ================================================================= *)
(** ** Further properties: rendering *)

Lemma trimStart_blank (s : jsstring) : trimStart s = [] <-> blank s.
Proof.
  unfold blank. induction s as [|c s IH]; cbn [trimStart].
  - split; [constructor | reflexivity].
  - destruct (isWhiteSpace c) eqn:E.
    + rewrite IH. split; intros H.
      * now constructor.
      * now inversion H.
    + split; [discriminate|]. intros H. inversion H. congruence.
Qed.

Lemma trim_blank (s : jsstring) : trim s = [] <-> blank s.
Proof.
  rewrite <- trimStart_blank. unfold trim.
  pose proof (trimStart_head s) as H.
  destruct (trimStart s) as [|c t]; [tauto|].
  destruct (trimEnd_keeps_head c t H) as [r ->].
  split; discriminate.
Qed.

Lemma truthy_str_nonempty (s : jsstring) : truthy_str s = true <-> s <> [].
Proof. destruct s; cbn; split; congruence. Qed.

Lemma truthy_trim (s : jsstring) : truthy_str (trim s) = true <-> ~ blank s.
Proof. rewrite truthy_str_nonempty, trim_blank. tauto. Qed.

Lemma falsy_trim (s : jsstring) : truthy_str (trim s) = false <-> blank s.
Proof.
  rewrite <- trim_blank. destruct (trim s); cbn; split; congruence.
Qed.

(** X4. With a blank organization code, or with no session key or a blank
    one, [refreshAndRender] shows the not-configured status, sends no
    request and leaves the cookie cache alone, whatever the network would
    answer. *)
Theorem refreshAndRender_unconfigured (w : World) (cfg : Settings) (c : Cache) :
  blank (organizationCode cfg)
  \/ secret_sessionKey cfg = None
  \/ (exists s, secret_sessionKey cfg = Some s /\ blank s) ->
  refreshAndRender w cfg c = (Return not_configured, c, []).
Proof.
  intros H. unfold refreshAndRender. cbv zeta.
  assert (E : negb (truthy_str (trim (organizationCode cfg)))
              || negb (truthy_str match secret_sessionKey cfg with
                                  | Some s => trim s
                                  | None => []
                                  end) = true).
  { apply orb_true_iff. destruct H as [H|[H|(s & H & Hs)]].
    - left. apply negb_true_iff. now apply falsy_trim.
    - right. now rewrite H.
    - right. rewrite H. apply negb_true_iff. now apply falsy_trim. }
  now rewrite E.
Qed.

Lemma refreshAndRender_unconfigured_witness :
  refreshAndRender (Samples.w_first_succeeds Samples.usage_body)
    (mkSettings (lit " ") (lit "left") (Some Samples.credential)) initial_cache
  = (Return not_configured, initial_cache, []).
Proof.
  apply refreshAndRender_unconfigured. left.
  repeat constructor.
Defined.

Ltac render_leaf :=
  unfold ret; cbn [fst snd]; rewrite app_nil_r;
  split; [reflexivity|]; split; [reflexivity|]; intros ? [=].

(** X5. With both settings present, [refreshAndRender] sends exactly the
    requests of its one call of [fetchUsage] and leaves the cache as that
    call left it; an error thrown by [fetchUsage] does not escape but
    becomes the error status, whose command reopens the configuration. *)
Theorem refreshAndRender_wraps_fetchUsage
  (w : World) (cfg : Settings) (c : Cache) (s : jsstring) :
  ~ blank (organizationCode cfg) ->
  secret_sessionKey cfg = Some s ->
  ~ blank s ->
  let r := fetchUsage w (trim (organizationCode cfg)) (trim s) c in
  calls (refreshAndRender w cfg c) = calls r
  /\ cache_after (refreshAndRender w cfg c) = cache_after r
  /\ (forall e, outcome r = Throw e ->
        outcome (refreshAndRender w cfg c) = Return (error_status e)
        /\ status_text (error_status e) = lit "$(error) Claude ERR"
        /\ status_command (error_status e) = lit "claudeUsage.configure").
Proof.
  intros Horg Hsec Hkey. cbv zeta.
  apply truthy_trim in Horg. apply truthy_trim in Hkey.
  unfold refreshAndRender. cbv zeta. rewrite Hsec, Horg, Hkey.
  cbn [negb orb]. unfold try_catch, bind.
  destruct (fetchUsage w _ _ c) as [[[data|e] c1] t1];
    unfold outcome, cache_after, calls; cbn [fst snd].
  - cbv zeta.
    destruct (negb _ || negb _ || negb _); [render_leaf|].
    destruct (get_prop _ (lit "utilization")) as [[| | | | |]|];
      try render_leaf.
    destruct (get_prop _ (lit "resets_at")); render_leaf.
  - unfold ret. cbn [fst snd]. rewrite app_nil_r.
    split; [reflexivity|]. split; [reflexivity|].
    intros e' [= <-]. repeat split.
Qed.

Lemma refreshAndRender_wraps_fetchUsage_witness :
  calls (refreshAndRender Samples.w_not_found Samples.settings initial_cache)
  = calls (fetchUsage Samples.w_not_found (trim Samples.org)
             (trim Samples.credential) initial_cache).
Proof.
  apply (refreshAndRender_wraps_fetchUsage Samples.w_not_found Samples.settings
           initial_cache Samples.credential).
  - intros H. inversion H as [|x l Hx Hl]. discriminate Hx.
  - reflexivity.
  - intros H. inversion H as [|x l Hx Hl]. discriminate Hx.
Defined.

Lemma firstn_app_long {A} (n : nat) (l1 l2 : list A) :
  (n <= List.length l1)%nat -> firstn n (l1 ++ l2) = firstn n l1.
Proof.
  intros H. rewrite firstn_app.
  replace (n - List.length l1)%nat with 0%nat by lia.
  cbn. apply app_nil_r.
Qed.

Lemma is_challenge_403 (s : jsstring) :
  includes s (lit "403") = true -> is_challenge s = true.
Proof. intros H. unfold is_challenge. rewrite H. apply orb_true_r. Qed.

Lemma http_error_403_challenge (excerpt : jsstring) :
  is_challenge (message (http_error 403 excerpt)) = true.
Proof. apply is_challenge_403. reflexivity. Qed.

(** X6. What the user sees of an exhausted bot-challenge failure.  When
    the last error's message has 200 characters or more, [safeErrorMessage]
    returns its first 200 characters and none of the remediation block
    [fetchUsage] appended, so the error status is the one the last error
    alone would give.  An HTTP 403 whose body has 190 characters or more
    is such an error. *)
Theorem remediation_block_is_cut_from_tooltip (e3 : Error) :
  is_challenge (message e3) = true ->
  (200 <= List.length (message e3))%nat ->
  safeErrorMessage (exhausted_error (Some e3)) = substring0 (message e3) 200
  /\ error_status (exhausted_error (Some e3)) = error_status e3
  /\ (forall body, (190 <= List.length body)%nat ->
        is_challenge (message (http_error 403 body)) = true
        /\ (200 <= List.length (message (http_error 403 body)))%nat).
Proof.
  intros Hc Hlen.
  assert (Hs : safeErrorMessage (exhausted_error (Some e3))
               = substring0 (message e3) 200).
  { rewrite (exhausted_error_challenge e3 Hc).
    unfold safeErrorMessage, substring0, ERROR_MESSAGE_MAX_LENGTH.
    cbn [message new_Error]. now apply firstn_app_long. }
  split; [exact Hs|]. split.
  - unfold error_status. rewrite Hs. reflexivity.
  - intros body Hb. split; [apply http_error_403_challenge|].
    unfold http_error, new_Error, substring0, ERROR_MESSAGE_MAX_LENGTH.
    cbn [message]. rewrite !length_app, length_firstn.
    change (List.length (lit "HTTP ")) with 5%nat.
    change (List.length (Z_to_string 403)) with 3%nat.
    change (List.length (lit ": ")) with 2%nat. lia.
Qed.

Lemma remediation_block_is_cut_from_tooltip_witness :
  error_status
    (exhausted_error
       (Some (http_error 403 (repeat 60%N 190))))
  = error_status (http_error 403 (repeat 60%N 190)).
Proof.
  apply (remediation_block_is_cut_from_tooltip
           (http_error 403 (repeat 60%N 190))).
  - reflexivity.
  - apply Nat.leb_le. vm_compute. reflexivity.
Defined.

(* ================================================================= *)
(** ** Further properties: requests and the cache *)

Lemma fetchCfBmCookie_calls (w : World) (sessionKey : jsstring) (c : Cache) :
  calls (fetchCfBmCookie w sessionKey c) = []
  \/ calls (fetchCfBmCookie w sessionKey c) = [callA]
  \/ calls (fetchCfBmCookie w sessionKey c) = [callA; callB].
Proof.
  destruct (cache_hit w c) eqn:Hc.
  - left. now rewrite (fetchCfBmCookie_hit w sessionKey c Hc).
  - right.
    destruct (fetchCfBmCookie_miss w sessionKey) as (found & more & _ & HA & Hrun).
    rewrite (Hrun c Hc). cbn [calls snd].
    destruct (strategyA w sessionKey) as [resp|e].
    + left. now rewrite HA.
    + destruct (includes (message e) (lit "Timeout")).
      * left. destruct HA as [_ ->]. reflexivity.
      * right. now rewrite HA.
Qed.

Lemma fetchUsage_calls_and_cache
  (w : World) (org encoded sessionKey : jsstring) (c : Cache) :
  encodeURIComponent w org = Return encoded ->
  let p := fetchCfBmCookie w sessionKey c in
  let url := usage_url encoded in
  let h := request_headers w sessionKey c in
  exists n, (1 <= n <= 3)%nat
    /\ calls (fetchUsage w org sessionKey c) = calls p ++ usage_calls w url h n
    /\ cache_after (fetchUsage w org sessionKey c) = cache_after p.
Proof.
  intros Henc. cbv zeta.
  rewrite (fetchUsage_cases w org encoded sessionKey c Henc). cbv zeta.
  set (url := usage_url encoded).
  set (h := request_headers w sessionKey c).
  destruct (result1 w url h) as [d1|e1]; [exists 1%nat; repeat split; lia|].
  destruct (retryable e1); [|exists 1%nat; repeat split; lia].
  destruct (result2 w url h) as [d2|e2]; [exists 2%nat; repeat split; lia|].
  destruct (retryable e2); [|exists 2%nat; repeat split; lia].
  exists 3%nat.
  destruct (result3 w url h) as [d3|e3]; [repeat split; lia|].
  destruct (retryable e3); repeat split; lia.
Qed.

Lemma usage_calls_targets (w : World) (url : jsstring) (h : Headers) (n : nat) :
  Forall (fun call => target call = url) (usage_calls w url h n)
  /\ (List.length (usage_calls w url h n) <= 3)%nat.
Proof.
  unfold usage_calls.
  destruct (calls1_cases w url h) as [ -> | -> ];
    destruct n as [|[|[|[|n]]]]; cbn; split; repeat constructor.
Qed.

(** X7. The footprint of one [fetchUsage].  An organization code that
    [encodeURIComponent] refuses ends the call with that error before
    anything is requested or cached.  Otherwise it makes at most five
    requests, every one of them to the origin (priming) or to the usage URL
    of the given organization, the priming ones first, with at least one
    usage request when [Headers.append] accepts the headers; and the only
    thing it changes in the cache is what its call of [fetchCfBmCookie]
    changes. *)
Theorem fetchUsage_footprint (w : World) (org sessionKey : jsstring) (c : Cache) :
  let r := fetchUsage w org sessionKey c in
  let h := request_headers w sessionKey c in
  (List.length (calls r) <= 5)%nat
  /\ (forall e, encodeURIComponent w org = Throw e -> r = (Throw e, c, []))
  /\ (forall encoded, encodeURIComponent w org = Return encoded ->
      let url := usage_url encoded in
      Forall (fun call => target call = API_BASE_URL \/ target call = url)
        (calls r)
      /\ (exists priming usage,
            calls r = priming ++ usage
            /\ Forall (fun call => target call = API_BASE_URL) priming
            /\ Forall (fun call => target call = url) usage
            /\ (append_all w h = Return tt -> usage <> []))
      /\ cache_after r = cache_after (fetchCfBmCookie w sessionKey c)).
Proof.
  cbv zeta.
  assert (Hp : Forall (fun call => target call = API_BASE_URL)
                 (calls (fetchCfBmCookie w sessionKey c))
               /\ (List.length (calls (fetchCfBmCookie w sessionKey c)) <= 2)%nat).
  { destruct (fetchCfBmCookie_calls w sessionKey c) as [ -> | [ -> | -> ] ];
      split; repeat constructor. }
  destruct Hp as [Hp1 Hp2].
  split; [|split].
  - destruct (encodeURIComponent w org) as [encoded|e] eqn:Henc.
    + destruct (fetchUsage_calls_and_cache w org encoded sessionKey c Henc)
        as (n & _ & Hcalls & _).
      rewrite Hcalls, length_app.
      pose proof (proj2 (usage_calls_targets w (usage_url encoded)
                           (request_headers w sessionKey c) n)).
      lia.
    + rewrite (fetchUsage_malformed w org sessionKey c e Henc).
      cbn. lia.
  - intros e Henc. now apply fetchUsage_malformed.
  - intros encoded Henc.
    destruct (fetchUsage_calls_and_cache w org encoded sessionKey c Henc)
      as (n & Hn & Hcalls & Hcache).
    rewrite Hcalls, Hcache.
    destruct (usage_calls_targets w (usage_url encoded)
                (request_headers w sessionKey c) n) as [Hu1 _].
    split; [|split; [|reflexivity]].
    + apply Forall_app. split.
      * eapply Forall_impl; [|exact Hp1]. cbn. auto.
      * eapply Forall_impl; [|exact Hu1]. cbn. auto.
    + eexists _, _. split; [reflexivity|]. split; [exact Hp1|].
      split; [exact Hu1|].
      intros Ha. rewrite (usage_calls_accepted _ _ _ n Ha).
      destruct n as [|[|[|[|n]]]]; try lia; discriminate.
Qed.

(** A malformed organization code: the URIError, and no request. *)
Lemma fetchUsage_footprint_witness :
  fetchUsage Samples.w_third_succeeds Samples.org_malformed Samples.credential
    initial_cache
  = (Throw (mkError (lit "URIError") (lit "URI malformed")), initial_cache, []).
Proof.
  destruct (fetchUsage_footprint Samples.w_third_succeeds Samples.org_malformed
              Samples.credential initial_cache) as (_ & H & _).
  apply H. reflexivity.
Defined.

(** X8. A warm cache is used whoever asks.  While a non-empty cached
    cookie has not expired, [fetchUsage] (once the URL is built) sends no
    priming request, for whichever credential it is called: its requests
    are those of a non-empty prefix of the three strategies -- a prefix of
    the three usage requests when [Headers.append] accepts the headers --
    the cache is left as it is, and the [Cookie] header of each request is
    the cached cookie, ["; "] and the formatted credential. *)
Theorem fetchUsage_warm_cache
  (w : World) (org encoded sessionKey : jsstring) (c : Cache)
  (cookie : jsstring) :
  encodeURIComponent w org = Return encoded ->
  cfBmCookie c = Some cookie -> cookie <> [] ->
  Date_now w < cfBmCookieExpiry c ->
  let url := usage_url encoded in
  let h := request_headers w sessionKey c in
  (exists n, (1 <= n <= 3)%nat
     /\ calls (fetchUsage w org sessionKey c) = usage_calls w url h n
     /\ (append_all w h = Return tt ->
         calls (fetchUsage w org sessionKey c) = firstn n (strategies url)))
  /\ cache_after (fetchUsage w org sessionKey c) = c
  /\ h = getStandardHeaders
           (cookie ++ lit "; " ++ formatSessionKeyCookie sessionKey)
  /\ hd_error h
     = Some (lit "Cookie",
             cookie ++ lit "; " ++ formatSessionKeyCookie sessionKey).
Proof.
  intros Henc Hcookie Hne Hnow. cbv zeta.
  assert (Hhit : cache_hit w c = true).
  { unfold cache_hit. rewrite Hcookie. cbn [truthy_opt].
    apply andb_true_iff. split.
    - now apply truthy_str_nonempty.
    - now apply Z.ltb_lt. }
  pose proof (fetchCfBmCookie_hit w sessionKey c Hhit) as Hrun.
  destruct (fetchUsage_calls_and_cache w org encoded sessionKey c Henc)
    as (n & Hn & Hcalls & Hcache).
  rewrite Hrun in Hcalls, Hcache at 1.
  cbn [calls cache_after fst snd app] in Hcalls, Hcache.
  assert (Hh : request_headers w sessionKey c
               = getStandardHeaders
                   (cookie ++ lit "; " ++ formatSessionKeyCookie sessionKey)).
  { unfold request_headers, acquired. rewrite Hrun. cbn [outcome fst].
    rewrite Hcookie. unfold cookie_value.
    now rewrite (proj2 (truthy_str_nonempty cookie) Hne). }
  split.
  { exists n. split; [exact Hn|]. split; [exact Hcalls|].
    intros Ha. rewrite Hcalls. now apply usage_calls_accepted. }
  split; [exact Hcache|]. split; [exact Hh|].
  rewrite Hh. reflexivity.
Qed.

Lemma fetchUsage_warm_cache_witness :
  cache_after (fetchUsage (Samples.w_priming 2000) Samples.org Samples.credential
                 (mkCache (Some (lit "__cf_bm=tok")) 301000))
  = mkCache (Some (lit "__cf_bm=tok")) 301000.
Proof.
  apply (fetchUsage_warm_cache (Samples.w_priming 2000) Samples.org
           Samples.org Samples.credential
           (mkCache (Some (lit "__cf_bm=tok")) 301000)
           (lit "__cf_bm=tok")).
  - reflexivity.
  - reflexivity.
  - discriminate.
  - reflexivity.
Defined.

(* ================================================================= *)
(** ** Further properties: what the strategies make of a response *)

Lemma result1_status (w : World) (url : jsstring) (h : Headers)
  (r : FetchResponse) (body : jsstring) :
  append_all w h = Return tt ->
  settled (global_fetch w url h) = Return r ->
  ok r = false -> text r = Return body ->
  result1 w url h = Throw (http_error (status r) body).
Proof.
  intros Ha Hr Hok Ht.
  unfold result1, method1, outcome, bind, eval, await, settle, throw.
  cbv beta iota zeta. rewrite Ha. cbn [fst snd]. rewrite Hr. cbn [fst snd].
  now rewrite Hok, Ht.
Qed.

Lemma result2_status (w : World) (url : jsstring) (h : Headers)
  (r : UndiciResponse) (d : Value) :
  settled (undici_request w url h) = Return r ->
  is_2xx (statusCode r) = false -> body_json r = Return d ->
  result2 w url h = Throw (http_error (statusCode r) (JSON_stringify w d)).
Proof.
  intros Hr Hs Hb.
  unfold result2, method2, outcome, bind, await, settle, throw.
  cbv beta iota zeta. rewrite Hr. cbn [fst snd]. now rewrite Hb, Hs.
Qed.

Lemma result2_parse_error (w : World) (url : jsstring) (h : Headers)
  (r : UndiciResponse) (e : Error) :
  settled (undici_request w url h) = Return r ->
  body_json r = Throw e ->
  result2 w url h = Throw e.
Proof.
  intros Hr Hb.
  unfold result2, method2, outcome, bind, await, settle.
  cbv beta iota zeta. rewrite Hr. cbn [fst snd]. now rewrite Hb.
Qed.

Lemma result3_status (w : World) (url : jsstring) (h : Headers)
  (r : AxiosResponse) :
  settled (axios_get w url h) = Return r ->
  is_2xx (ax_status r) = false ->
  exists excerpt, result3 w url h = Throw (http_error (ax_status r) excerpt).
Proof.
  intros Hr Hs.
  unfold result3, method3, outcome, bind, await, throw.
  cbv beta iota zeta. rewrite Hr. cbn [fst snd]. rewrite Hs.
  now eexists.
Qed.

Lemma http_error_message_length (st : Z) (excerpt : jsstring) :
  (List.length (message (http_error st excerpt))
   <= 7 + List.length (Z_to_string st) + 200)%nat.
Proof.
  unfold http_error, new_Error. cbn [message].
  rewrite !length_app.
  pose proof (substring0_length excerpt ERROR_MESSAGE_MAX_LENGTH) as H.
  change (List.length (lit "HTTP ")) with 5%nat.
  change (List.length (lit ": ")) with 2%nat.
  unfold ERROR_MESSAGE_MAX_LENGTH in *. cbn [List.length] in *. lia.
Qed.

(** X9. When each of the three clients gets an HTTP 403 (with a body it
    can read) -- the URL built and the headers accepted, so that [fetch] is
    called at all -- no strategy aborts the chain: all three requests are
    sent, and [fetchUsage] throws one error whose message is the axios
    failure, ["HTTP 403: "] and at most 200 characters of the body,
    followed by the remediation block -- not the bare 403. *)
Theorem all_403_ends_in_remediation
  (w : World) (org encoded sessionKey : jsstring) (c : Cache)
  (r1 : FetchResponse) (b1 : jsstring)
  (r2 : UndiciResponse) (d2 : Value) (r3 : AxiosResponse) :
  encodeURIComponent w org = Return encoded ->
  let p := fetchCfBmCookie w sessionKey c in
  let url := usage_url encoded in
  let h := request_headers w sessionKey c in
  append_all w h = Return tt ->
  settled (global_fetch w url h) = Return r1 ->
  status r1 = 403 -> text r1 = Return b1 ->
  settled (undici_request w url h) = Return r2 ->
  statusCode r2 = 403 -> body_json r2 = Return d2 ->
  settled (axios_get w url h) = Return r3 ->
  ax_status r3 = 403 ->
  exists m3,
    fetchUsage w org sessionKey c
    = (Throw (new_Error (m3 ++ cloudflare_help)), cache_after p,
       calls p ++ strategies url)
    /\ startsWith m3 (lit "HTTP 403: ") = true
    /\ (List.length m3 <= 210)%nat.
Proof.
  intros Henc p url h Ha H1 S1 T1 H2 S2 B2 H3 S3.
  assert (E1 : result1 w url h = Throw (http_error 403 b1)).
  { rewrite <- S1. apply result1_status; auto. unfold ok. now rewrite S1. }
  assert (E2 : result2 w url h = Throw (http_error 403 (JSON_stringify w d2))).
  { rewrite <- S2. apply result2_status; auto. now rewrite S2. }
  destruct (result3_status w url h r3 H3) as [x E3]; [now rewrite S3|].
  rewrite S3 in E3.
  exists (message (http_error 403 x)). split; [|split].
  - subst p. rewrite (fetchUsage_cases w org encoded sessionKey c Henc).
    cbv zeta. fold url h.
    rewrite E1, E2, E3.
    rewrite !(challenge_retryable _ (http_error_403_challenge _)).
    rewrite (exhausted_error_challenge _ (http_error_403_challenge x)).
    now rewrite (usage_calls_accepted w url h 3 Ha).
  - reflexivity.
  - pose proof (http_error_message_length 403 x) as H.
    change (List.length (Z_to_string 403)) with 3%nat in H. exact H.
Qed.

Lemma all_403_ends_in_remediation_witness :
  exists m3,
    outcome (fetchUsage Samples.w_all_challenged Samples.org Samples.credential
               initial_cache)
    = Throw (new_Error (m3 ++ cloudflare_help)).
Proof.
  destruct (all_403_ends_in_remediation Samples.w_all_challenged Samples.org
              Samples.org Samples.credential initial_cache
              (mkFetchResponse 403 (Return Samples.challenge_page)
                 Samples.not_json Samples.no_headers)
              Samples.challenge_page
              (mkUndiciResponse 403 Samples.no_headers (Return (VObject [])))
              (VObject [])
              (mkAxiosResponse 403 (VString Samples.challenge_page))
              eq_refl eq_refl
              eq_refl eq_refl eq_refl eq_refl eq_refl eq_refl eq_refl eq_refl)
    as (m3 & H & _).
  exists m3. now rewrite H.
Defined.

(** X10. The undici strategy parses the body before it looks at the
    status: when the body is not JSON it fails with the parser's error
    whatever the status, a 404 included.  If that error's message is not
    empty and does not contain ["HTTP"], the failure counts as a transport
    error and the axios strategy is still tried: the calls are those of
    all three strategies, which are the three usage requests when
    [Headers.append] accepts the headers. *)
Theorem undici_parse_error_hides_status
  (w : World) (org encoded sessionKey : jsstring) (c : Cache)
  (e1 : Error) (r2 : UndiciResponse) (e2 : Error) :
  encodeURIComponent w org = Return encoded ->
  let p := fetchCfBmCookie w sessionKey c in
  let url := usage_url encoded in
  let h := request_headers w sessionKey c in
  result1 w url h = Throw e1 -> retryable e1 = true ->
  settled (undici_request w url h) = Return r2 ->
  body_json r2 = Throw e2 ->
  result2 w url h = Throw e2
  /\ (message e2 <> [] -> includes (message e2) (lit "HTTP") = false ->
      calls (fetchUsage w org sessionKey c) = calls p ++ usage_calls w url h 3
      /\ (append_all w h = Return tt ->
          calls (fetchUsage w org sessionKey c) = calls p ++ strategies url)).
Proof.
  intros Henc p url h E1 R1 H2 B2.
  pose proof (result2_parse_error w url h r2 e2 H2 B2) as E2.
  split; [exact E2|]. intros Hne Hh.
  assert (R2 : retryable e2 = true).
  { unfold retryable, or_else. cbv zeta.
    rewrite (proj2 (truthy_str_nonempty (message e2)) Hne), Hh.
    apply orb_true_r. }
  assert (Hcalls : calls (fetchUsage w org sessionKey c)
                   = calls p ++ usage_calls w url h 3).
  { subst p. rewrite (fetchUsage_cases w org encoded sessionKey c Henc).
    cbv zeta. fold url h.
    rewrite E1, R1, E2, R2.
    destruct (result3 w _ _) as [d3|e3]; [reflexivity|].
    destruct (retryable e3); reflexivity. }
  split; [exact Hcalls|].
  intros Ha. rewrite Hcalls. now rewrite (usage_calls_accepted w url h 3 Ha).
Qed.

Lemma undici_parse_error_hides_status_witness :
  result2 Samples.w_undici_html_404
    (usage_url Samples.org)
    (request_headers Samples.w_undici_html_404 Samples.credential initial_cache)
  = Samples.not_json
  /\ calls (fetchUsage Samples.w_undici_html_404 Samples.org Samples.credential
              initial_cache)
     = calls (fetchCfBmCookie Samples.w_undici_html_404 Samples.credential
                initial_cache)
       ++ strategies (usage_url Samples.org).
Proof.
  destruct (undici_parse_error_hides_status Samples.w_undici_html_404
              Samples.org Samples.org Samples.credential initial_cache
              (mkError (lit "TypeError") (lit "fetch failed"))
              (mkUndiciResponse 404 Samples.no_headers Samples.not_json)
              (mkError (lit "SyntaxError") (lit "Unexpected token < in JSON"))
              eq_refl eq_refl eq_refl eq_refl eq_refl) as [H1 H2].
  split; [exact H1|].
  destruct H2 as [_ H2]; [discriminate | reflexivity |].
  apply H2. reflexivity.
Defined.

(* ================================================================= *)
(** ** Further properties: the refresh timer *)

Lemma stopAutoRefresh_clears (h : Timers) :
  tidy h ->
  live (stopAutoRefresh h) = [] /\ refreshTimer (stopAutoRefresh h) = None.
Proof.
  unfold tidy, stopAutoRefresh.
  destruct (refreshTimer h) as [t|] eqn:E.
  - intros [d Hd]. rewrite Hd. cbn. now rewrite Nat.eqb_refl.
  - intros Hl. now rewrite E.
Qed.

Lemma Math_max_integer (k : Z) :
  Math_max (Finite 30) (Finite (inject_Z k)) = Finite (inject_Z (Z.max 30 k)).
Proof.
  unfold Math_max, Qle_bool, inject_Z. cbn [Qnum Qden].
  rewrite !Z.mul_1_r.
  destruct (Z.leb_spec 30 k).
  - now rewrite Z.max_r by lia.
  - now rewrite Z.max_l by lia.
Qed.

Lemma product_exact : exact_on_integers Samples.product.
Proof. intros a b _ _ _. reflexivity. Qed.

Lemma timer_step_invariant (times : DoubleProduct) (h : Timers) (op : TimerOp) :
  tidy h -> tidy (timer_step times h op).
Proof.
  intros Ht.
  destruct (stopAutoRefresh_clears h Ht) as [Hl Hr].
  destruct op as [enabled secs|]; cbn [timer_step].
  - unfold startAutoRefresh. cbv zeta.
    destruct enabled; cbn [negb].
    + rewrite Hl. unfold tidy. cbn. eauto.
    + unfold tidy. now rewrite Hr, Hl.
  - unfold tidy. now rewrite Hr, Hl.
Qed.

Lemma timer_run_invariant (times : DoubleProduct) (ops : list TimerOp) :
  tidy (fold_left (timer_step times) ops no_timers).
Proof.
  induction ops as [|op ops IH] using rev_ind.
  - reflexivity.
  - rewrite fold_left_app. cbn [fold_left].
    now apply timer_step_invariant.
Qed.

Lemma timer_run_started
  (times : DoubleProduct) (ops : list TimerOp) (s : Number) :
  let h := fold_left (timer_step times) (ops ++ [Start true s]) no_timers in
  exists t, refreshTimer h = Some t
            /\ live h = [(t, times (Math_max (Finite 30) s) (Finite 1000))].
Proof.
  cbv zeta. rewrite fold_left_app. cbn [fold_left timer_step].
  destruct (stopAutoRefresh_clears _ (timer_run_invariant times ops)) as [Hl Hr].
  unfold startAutoRefresh. cbv zeta. cbn [negb]. rewrite Hl.
  eexists. split; reflexivity.
Qed.

(** X11. Whatever sequence of [startAutoRefresh] and [stopAutoRefresh]
    calls the extension makes, at most one interval timer is live, and it
    is the one [refreshTimer] holds: restarts never pile up timers.  The
    delay handed to [setInterval] is the double product of 1000 and the
    larger of 30 and the [refreshSeconds] setting.  For an integer setting
    [k], with that product at most 2^53 and so exact, the delay is the
    integer [max 30 k * 1000], which is at least 30000 whatever [k] is;
    of other settings, where the product rounds or overflows, nothing is
    said.  After a stop, or a start with auto-refresh disabled, no timer
    is live. *)
Theorem refresh_timer_is_single_and_slow
  (times : DoubleProduct) (ops : list TimerOp) :
  let h := fold_left (timer_step times) ops no_timers in
  tidy h
  /\ (List.length (live h) <= 1)%nat
  /\ (forall ops' s, ops = ops' ++ [Start true s] ->
        exists t, refreshTimer h = Some t
                  /\ live h = [(t, times (Math_max (Finite 30) s) (Finite 1000))])
  /\ (forall ops' k, ops = ops' ++ [Start true (Finite (inject_Z k))] ->
        exact_on_integers times -> Z.max 30 k * 1000 <= 2 ^ 53 ->
        (exists t, refreshTimer h = Some t
                   /\ live h = [(t, Finite (inject_Z (Z.max 30 k * 1000)))])
        /\ 30000 <= Z.max 30 k * 1000)
  /\ (forall ops' op, ops = ops' ++ [op] ->
        op = Stop \/ (exists s, op = Start false s) ->
        refreshTimer h = None /\ live h = []).
Proof.
  cbv zeta.
  pose proof (timer_run_invariant times ops) as Ht.
  split; [exact Ht|]. split; [|split; [|split]].
  - unfold tidy in Ht.
    destruct (refreshTimer _); [destruct Ht as [d ->]|rewrite Ht]; cbn; lia.
  - intros ops' s ->. apply timer_run_started.
  - intros ops' k -> Hexact Hk. split; [|lia].
    destruct (timer_run_started times ops' (Finite (inject_Z k)))
      as (t & Hr & Hl).
    exists t. split; [exact Hr|]. rewrite Hl.
    rewrite Math_max_integer.
    change (Finite 1000) with (Finite (inject_Z 1000)).
    rewrite Hexact; [reflexivity | | |].
    + assert (0 <= Z.max 30 k <= Z.max 30 k * 1000) by lia.
      rewrite Z.abs_eq; lia.
    + cbn. lia.
    + rewrite Z.abs_eq; lia.
  - intros ops' op -> Hop. rewrite fold_left_app. cbn [fold_left].
    destruct (stopAutoRefresh_clears _ (timer_run_invariant times ops'))
      as [Hl Hr].
    destruct Hop as [->|[s ->]]; cbn [timer_step].
    + now split.
    + unfold startAutoRefresh. cbv zeta. cbn [negb]. now split.
Qed.

(** A setting of 5 seconds, after a start and a stop: one timer, of
    30000 ms. *)
Lemma refresh_timer_is_single_and_slow_witness :
  exists t,
    live (fold_left (timer_step Samples.product)
            [Start true (Finite 60); Stop; Start true (Finite 5)] no_timers)
    = [(t, Finite 30000)].
Proof.
  destruct (refresh_timer_is_single_and_slow Samples.product
              [Start true (Finite 60); Stop; Start true (Finite 5)])
    as (_ & _ & _ & H & _).
  destruct (H [Start true (Finite 60); Stop] 5 eq_refl product_exact)
    as ((t & _ & Hl) & _).
  - vm_compute. discriminate.
  - exists t. exact Hl.
Defined.

(* ================================================================= *)
(** ** Further properties: the commands *)

Lemma str_eqb_eq (a b : jsstring) : str_eqb a b = true <-> a = b.
Proof.
  revert b. induction a as [|x a IH]; intros [|y b]; cbn [str_eqb].
  - tauto.
  - split; discriminate.
  - split; discriminate.
  - rewrite andb_true_iff, cu_eqb_eq, IH. split.
    + intros [-> ->]. reflexivity.
    + intros [= -> ->]. now split.
Qed.

Lemma refreshAndRender_not_configured (w : World) (cfg : Settings) (c : Cache) :
  is_configured cfg = false ->
  refreshAndRender w cfg c = (Return not_configured, c, []).
Proof.
  intros H. unfold is_configured in H. unfold refreshAndRender. cbv zeta.
  rewrite <- negb_andb, H. reflexivity.
Qed.

Lemma refreshAndRender_returns (w : World) (cfg : Settings) (c : Cache) :
  exists st c' t, refreshAndRender w cfg c = (Return st, c', t).
Proof.
  destruct (refreshAndRender_total w cfg c) as [st H].
  destruct (refreshAndRender w cfg c) as [[o c'] t].
  unfold outcome in H. cbn in H. subst o. eauto.
Qed.

(** X12. [claudeUsage.toggleMode] always leaves the mode at ["left"] or
    ["used"]: from ["left"] it goes to ["used"], from anything else to
    ["left"].  It changes no other setting, renders the status bar with
    the new mode, and toggling twice from ["left"] or ["used"] restores
    the settings. *)
Theorem toggleMode_alternates (w : World) (cfg : Settings) (c : Cache) :
  exists res,
    outcome (cmd_toggleMode w cfg c) = Return res
    /\ (mode cfg = lit "left" -> mode (settings_after res) = lit "used")
    /\ (mode cfg <> lit "left" -> mode (settings_after res) = lit "left")
    /\ organizationCode (settings_after res) = organizationCode cfg
    /\ secret_sessionKey (settings_after res) = secret_sessionKey cfg
    /\ (exists st, rendered res = Some st
                   /\ outcome (refreshAndRender w (settings_after res) c)
                      = Return st)
    /\ (mode cfg = lit "left" \/ mode cfg = lit "used" ->
        forall c', exists res',
          outcome (cmd_toggleMode w (settings_after res) c') = Return res'
          /\ settings_after res' = cfg).
Proof.
  unfold cmd_toggleMode. cbv zeta.
  set (next := if str_eqb (mode cfg) (lit "left") then lit "used" else lit "left").
  destruct (refreshAndRender_returns w (with_mode cfg next) c) as (st & c1 & t1 & Hrun).
  unfold bind, outcome. rewrite Hrun. cbn [ret fst snd].
  eexists. split; [reflexivity|]. cbn [settings_after rendered with_mode mode
                                        organizationCode secret_sessionKey].
  split; [|split; [|split; [|split; [|split]]]]; try reflexivity.
  - intros H. subst next. now rewrite (proj2 (str_eqb_eq _ _) H).
  - intros H. subst next. destruct (str_eqb (mode cfg) (lit "left")) eqn:E.
    + apply str_eqb_eq in E. congruence.
    + reflexivity.
  - exists st. now rewrite Hrun.
  - intros Hm c'.
    assert (Hback : (if str_eqb next (lit "left") then lit "used" else lit "left")
                    = mode cfg).
    { subst next. destruct Hm as [-> | ->]; reflexivity. }
    rewrite Hback.
    destruct (refreshAndRender_returns w
                (with_mode (with_mode cfg next) (mode cfg)) c')
      as (st' & c2 & t2 & Hrun').
    rewrite Hrun'. cbn [fst snd]. eexists. split; [reflexivity|].
    cbn [settings_after]. destruct cfg; reflexivity.
Qed.

(** One toggle from the default mode. *)
Lemma toggleMode_alternates_witness :
  exists res,
    outcome (cmd_toggleMode (Samples.w_first_succeeds Samples.usage_body)
               Samples.settings initial_cache) = Return res
    /\ mode (settings_after res) = lit "used".
Proof.
  destruct (toggleMode_alternates (Samples.w_first_succeeds Samples.usage_body)
              Samples.settings initial_cache) as (res & Hout & Hleft & _).
  exists res. split; [exact Hout | apply Hleft; reflexivity].
Defined.

(** X13. The two edit commands never store a blank value.  When the input
    box is dismissed, or the answer is blank, the settings stay as they
    are, the status bar is not rendered and no request is sent; otherwise
    the trimmed answer, which is not blank, is stored and the status bar
    is rendered. *)
Theorem edit_commands_reject_blank
  (w : World) (cfg : Settings) (answer : option jsstring) (c : Cache) :
  (answer = None \/ (exists a, answer = Some a /\ blank a) ->
   (exists ns, cmd_editOrganizationCode w cfg answer c
               = (Return (mkCommandResult cfg ns None), c, []))
   /\ (exists ns, cmd_editSessionKey w cfg answer c
                  = (Return (mkCommandResult cfg ns None), c, [])))
  /\ (forall a, answer = Some a -> ~ blank a ->
      (exists res,
          outcome (cmd_editOrganizationCode w cfg answer c) = Return res
          /\ settings_after res = with_organizationCode cfg (trim a)
          /\ ~ blank (organizationCode (settings_after res))
          /\ rendered res <> None)
      /\ (exists res,
             outcome (cmd_editSessionKey w cfg answer c) = Return res
             /\ settings_after res = with_secret cfg (Some (trim a))
             /\ ~ blank (trim a)
             /\ rendered res <> None)).
Proof.
  split.
  - intros [->|(a & -> & Ha)].
    + split; eexists; reflexivity.
    + apply falsy_trim in Ha.
      unfold cmd_editOrganizationCode, cmd_editSessionKey. cbv zeta.
      rewrite Ha. split; eexists; reflexivity.
  - intros a -> Ha.
    assert (Hnb : ~ blank (trim a)).
    { apply truthy_trim. rewrite trim_idem. now apply truthy_trim. }
    apply truthy_trim in Ha.
    unfold cmd_editOrganizationCode, cmd_editSessionKey. cbv zeta.
    rewrite Ha. unfold bind, outcome. split.
    + destruct (refreshAndRender_returns w (with_organizationCode cfg (trim a)) c)
        as (st & c1 & t1 & ->).
      cbn [ret fst snd]. eexists. split; [reflexivity|].
      cbn [settings_after rendered with_organizationCode organizationCode].
      repeat split; [exact Hnb | discriminate].
    + destruct (refreshAndRender_returns w (with_secret cfg (Some (trim a))) c)
        as (st & c1 & t1 & ->).
      cbn [ret fst snd]. eexists. split; [reflexivity|].
      cbn [settings_after rendered]. repeat split; [exact Hnb | discriminate].
Qed.

Lemma edit_commands_reject_blank_witness :
  exists ns,
    cmd_editSessionKey (Samples.w_first_succeeds Samples.usage_body)
      Samples.settings (Some (lit "   ")) initial_cache
    = (Return (mkCommandResult Samples.settings ns None), initial_cache, []).
Proof.
  destruct (edit_commands_reject_blank
              (Samples.w_first_succeeds Samples.usage_body) Samples.settings
              (Some (lit "   ")) initial_cache) as [H _].
  apply H. right. exists (lit "   "). split; [reflexivity|].
  repeat constructor.
Defined.

(** X14. [claudeUsage.clearSessionKey] removes the key, tells the user,
    and leaves the status bar at not-configured without sending a request
    or touching the cookie cache; a refresh that follows does the same
    until a key is stored again. *)
Theorem clearSessionKey_unconfigures (w : World) (cfg : Settings) (c : Cache) :
  cmd_clearSessionKey w cfg c
  = (Return (mkCommandResult (with_secret cfg None)
               [Information (lit "Claude Usage: sessionKey cleared.")]
               (Some not_configured)),
     c, [])
  /\ forall w' c',
       cmd_refresh w' (with_secret cfg None) c'
       = (Return (mkCommandResult (with_secret cfg None) [] (Some not_configured)),
          c', []).
Proof.
  assert (H : is_configured (with_secret cfg None) = false).
  { unfold is_configured. cbn. apply andb_false_r. }
  split.
  - unfold cmd_clearSessionKey, bind. cbv zeta.
    now rewrite (refreshAndRender_not_configured w _ c H).
  - intros w' c'. unfold cmd_refresh, bind.
    now rewrite (refreshAndRender_not_configured w' _ c' H).
Qed.

Lemma truthy_trim_trim (a : jsstring) :
  truthy_str (trim (trim a)) = truthy_str (trim a).
Proof. now rewrite trim_idem. Qed.

Lemma answered_nonblank (ans : option jsstring) :
  truthy_str (answered ans) = true <->
  exists a, ans = Some a /\ ~ blank a.
Proof.
  destruct ans as [a|]; cbn [answered].
  - rewrite truthy_trim. split; [eauto | intros (a' & [= <-] & H); exact H].
  - split; [discriminate | intros (a' & [=] & _)].
Qed.

Lemma ensureConfigured_run (cfg : Settings) (orgAnswer keyAnswer : option jsstring) :
  let o := truthy_str (trim (organizationCode cfg)) in
  let k := truthy_str (answered (secret_sessionKey cfg)) in
  let oa := truthy_str (answered orgAnswer) in
  let ka := truthy_str (answered keyAnswer) in
  ensureConfigured cfg orgAnswer keyAnswer
  = (mkSettings
       (if o then organizationCode cfg
        else if oa then answered orgAnswer else organizationCode cfg)
       (mode cfg)
       (if k then secret_sessionKey cfg
        else if ka then Some (answered keyAnswer) else secret_sessionKey cfg),
     (if o then [] else [AskOrganizationCode])
     ++ (if k then [] else [AskSessionKey])).
Proof.
  cbv zeta. destruct cfg as [org md sec].
  unfold ensureConfigured, answered. cbv zeta.
  cbn [organizationCode mode secret_sessionKey].
  destruct (truthy_str (trim org)); cbn [negb];
    [|destruct (truthy_str match orgAnswer with Some a => trim a | None => [] end)];
    cbn [with_organizationCode secret_sessionKey organizationCode mode];
    (destruct (truthy_str match sec with Some s => trim s | None => [] end);
     cbn [negb];
     [|destruct (truthy_str match keyAnswer with Some a => trim a | None => [] end)]);
    cbn [with_secret organizationCode mode secret_sessionKey app];
    reflexivity.
Qed.

Lemma trim_answered (ans : option jsstring) :
  trim (answered ans) = answered ans.
Proof. destruct ans; cbn [answered]; [apply trim_idem | reflexivity]. Qed.

Lemma ensureConfigured_configured
  (cfg : Settings) (orgAnswer keyAnswer : option jsstring) :
  is_configured (fst (ensureConfigured cfg orgAnswer keyAnswer))
  = (truthy_str (trim (organizationCode cfg)) || truthy_str (answered orgAnswer))
    && (truthy_str (answered (secret_sessionKey cfg))
        || truthy_str (answered keyAnswer)).
Proof.
  rewrite ensureConfigured_run. cbv zeta. cbn [fst].
  unfold is_configured. cbn [organizationCode secret_sessionKey].
  assert (Hs : forall x : option jsstring,
             truthy_str (match x with Some s => trim s | None => [] end)
             = truthy_str (answered x)) by reflexivity.
  rewrite Hs.
  destruct (truthy_str (trim (organizationCode cfg))) eqn:Eo;
    destruct (truthy_str (answered (secret_sessionKey cfg))) eqn:Ek;
    destruct (truthy_str (answered orgAnswer)) eqn:Eoa;
    destruct (truthy_str (answered keyAnswer)) eqn:Eka;
    cbn [answered orb andb];
    rewrite ?trim_answered, ?Eo, ?Ek, ?Eoa, ?Eka; try reflexivity;
    fold (answered (secret_sessionKey cfg)); rewrite ?Ek; reflexivity.
Qed.

(** X15. [ensureConfigured] only fills gaps.  A setting that is present
    and not blank is kept and its input box is not shown; with both
    present nothing is asked and nothing changes.  A missing setting is
    asked for, and stored, trimmed, only if the answer is not blank.  The
    mode is never touched.  Afterwards the extension is configured exactly
    when each setting was present or was given a non-blank answer. *)
Theorem ensureConfigured_fills_only_gaps
  (cfg : Settings) (orgAnswer keyAnswer : option jsstring) :
  let cfg' := fst (ensureConfigured cfg orgAnswer keyAnswer) in
  let asked := snd (ensureConfigured cfg orgAnswer keyAnswer) in
  (is_configured cfg = true -> cfg' = cfg /\ asked = [])
  /\ (~ blank (organizationCode cfg) ->
      organizationCode cfg' = organizationCode cfg
      /\ ~ In AskOrganizationCode asked)
  /\ (forall s, secret_sessionKey cfg = Some s -> ~ blank s ->
        secret_sessionKey cfg' = Some s /\ ~ In AskSessionKey asked)
  /\ (organizationCode cfg' = organizationCode cfg
      \/ exists a, orgAnswer = Some a /\ ~ blank a
                   /\ organizationCode cfg' = trim a)
  /\ (secret_sessionKey cfg' = secret_sessionKey cfg
      \/ exists a, keyAnswer = Some a /\ ~ blank a
                   /\ secret_sessionKey cfg' = Some (trim a))
  /\ mode cfg' = mode cfg
  /\ (is_configured cfg' = true <->
      (~ blank (organizationCode cfg)
       \/ exists a, orgAnswer = Some a /\ ~ blank a)
      /\ ((exists s, secret_sessionKey cfg = Some s /\ ~ blank s)
          \/ exists a, keyAnswer = Some a /\ ~ blank a)).
Proof.
  cbv zeta.
  pose proof (truthy_trim (organizationCode cfg)) as Ho.
  pose proof (answered_nonblank (secret_sessionKey cfg)) as Hk.
  pose proof (answered_nonblank orgAnswer) as Hoa.
  pose proof (answered_nonblank keyAnswer) as Hka.
  repeat match goal with |- _ /\ _ => split end.
  7:{ rewrite ensureConfigured_configured, andb_true_iff, !orb_true_iff.
      rewrite Ho, Hk, Hoa, Hka. reflexivity. }
  all: rewrite ensureConfigured_run; cbv zeta; cbn [fst snd];
    cbn [organizationCode mode secret_sessionKey]; unfold is_configured;
    fold (answered (secret_sessionKey cfg));
    destruct (truthy_str (trim (organizationCode cfg))) eqn:Eo;
    destruct (truthy_str (answered (secret_sessionKey cfg))) eqn:Ek;
    destruct (truthy_str (answered orgAnswer)) eqn:Eoa;
    destruct (truthy_str (answered keyAnswer)) eqn:Eka;
    cbn [andb app].
  (* 1: nothing is asked when configured *)
  1-16: first [discriminate
              | intros _; split; [now destruct cfg | reflexivity]].
  (* 2: a present organization code is kept *)
  1-16: intros Hb;
    first [apply Ho in Hb; discriminate Hb
          | split; [reflexivity | cbn; intuition discriminate]].
  (* 3: a present session key is kept *)
  1-16: intros s Hs Hb;
    first [exfalso; assert (Hx : false = true) by (apply Hk; eauto);
           discriminate Hx
          | split; [exact Hs | cbn; intuition discriminate]].
  (* 4, 5: what is stored is the old value or a trimmed answer *)
  1-16: first [left; reflexivity
              | right; destruct (proj1 Hoa eq_refl) as (a & -> & Ha);
                exists a; repeat split; assumption].
  1-16: first [left; reflexivity
              | right; destruct (proj1 Hka eq_refl) as (a & -> & Ha);
                exists a; repeat split; assumption].
  (* 6: the mode *)
  all: reflexivity.
Qed.

Lemma ensureConfigured_fills_only_gaps_witness :
  fst (ensureConfigured Samples.settings None None) = Samples.settings
  /\ snd (ensureConfigured Samples.settings None None) = [].
Proof.
  destruct (ensureConfigured_fills_only_gaps Samples.settings None None)
    as (H & _).
  apply H. reflexivity.
Defined.

(** X16. The debug command shows of the session key only its first ten
    characters and its length: two keys that agree on both give the same
    outcome.  When an organization code is set and [encodeURIComponent]
    accepts it, the message ends with the very URL [fetchUsage] requests
    for it; when [encodeURIComponent] refuses it, the handler throws that
    error and shows nothing; with no organization code the message ends
    with the placeholder URL. *)
Theorem debug_info_shows_key_prefix_only (w : World) (cfg : Settings) :
  let org := trim (organizationCode cfg) in
  (forall k1 k2,
      substring0 (trim k1) 10 = substring0 (trim k2) 10 ->
      List.length (trim k1) = List.length (trim k2) ->
      debug_info w (with_secret cfg (Some k1))
      = debug_info w (with_secret cfg (Some k2)))
  /\ (forall encoded,
        ~ blank (organizationCode cfg) ->
        encodeURIComponent w org = Return encoded ->
        exists pre,
          debug_info w cfg = Return (pre ++ lit "URL: " ++ usage_url encoded))
  /\ (forall e,
        ~ blank (organizationCode cfg) ->
        encodeURIComponent w org = Throw e ->
        debug_info w cfg = Throw e)
  /\ (blank (organizationCode cfg) ->
      exists pre,
        debug_info w cfg
        = Return (pre ++ lit "URL: "
                  ++ API_BASE_URL ++ API_USAGE_PATH ++ lit "/ORG/usage")).
Proof.
  cbv zeta. split; [|split; [|split]].
  - intros k1 k2 Hp Hl. unfold debug_info. cbv zeta.
    cbn [with_secret secret_sessionKey organizationCode].
    assert (Ht : truthy_str (trim k1) = truthy_str (trim k2)).
    { destruct (trim k1), (trim k2); cbn in *; congruence. }
    now rewrite Hp, Hl, Ht.
  - intros encoded Hb Henc. apply truthy_trim in Hb. unfold debug_info.
    cbv zeta. rewrite Hb, Henc. unfold usage_url.
    eexists. rewrite !app_assoc. reflexivity.
  - intros e Hb Henc. apply truthy_trim in Hb. unfold debug_info.
    cbv zeta. now rewrite Hb, Henc.
  - intros Hb. apply falsy_trim in Hb. unfold debug_info.
    cbv zeta. rewrite Hb.
    eexists. rewrite !app_assoc. reflexivity.
Qed.

Lemma debug_info_shows_key_prefix_only_witness :
  debug_info (Samples.w_first_succeeds VNull)
    (with_secret Samples.settings (Some (lit "sk-ant-sid01-AAAA")))
  = debug_info (Samples.w_first_succeeds VNull)
      (with_secret Samples.settings (Some (lit "sk-ant-sid01-BBBB"))).
Proof.
  apply (proj1 (debug_info_shows_key_prefix_only (Samples.w_first_succeeds VNull)
                  Samples.settings)); reflexivity.
Defined.

(** The debug command on an organization code with a lone surrogate. *)
Example debug_info_malformed_org :
  debug_info (Samples.w_first_succeeds VNull)
    (mkSettings Samples.org_malformed (lit "left") (Some Samples.credential))
  = Throw (mkError (lit "URIError") (lit "URI malformed")).
Proof. vm_compute. reflexivity. Qed.

(* ================================================================= *)
(** ** Further properties: the credential and the fallback cookie *)

(** X17. The credential reaches the server as the user gave it: the
    [Cookie] header [fetchUsage] sends is some prefix -- the mitigation
    cookie, the name ["sessionKey="], both or neither -- followed by the
    trimmed credential. *)
Theorem cookie_header_ends_with_credential
  (w : World) (sessionKey : jsstring) (c : Cache) :
  exists pre,
    hd_error (request_headers w sessionKey c)
    = Some (lit "Cookie", pre ++ trim sessionKey).
Proof.
  unfold request_headers, getStandardHeaders. cbn [hd_error].
  assert (Hf : exists p, formatSessionKeyCookie sessionKey = p ++ trim sessionKey).
  { unfold formatSessionKeyCookie. cbv zeta.
    destruct (negb _ && _); [now eexists | now exists []]. }
  destruct Hf as [p ->].
  unfold cookie_value.
  destruct (acquired w sessionKey c) as [k|]; [destruct (truthy_str k)|].
  - exists (k ++ lit "; " ++ p). now rewrite <- !app_assoc.
  - now exists p.
  - now exists p.
Qed.

Lemma split_pieces_free (s : jsstring) (d : codeunit) :
  Forall (fun p => ~ In d p) (split s d).
Proof.
  induction s as [|c s IH]; cbn [split].
  - constructor; [tauto | constructor].
  - destruct (cu_eqb c d) eqn:E.
    + constructor; [tauto | exact IH].
    + apply cu_eqb_neq in E.
      destruct (split s d) as [|p ps].
      * constructor; [|constructor]. intros [H|[]]. congruence.
      * inversion IH; subst. constructor; [|assumption].
        intros [H|H]; [congruence | tauto].
Qed.

Lemma trimStart_In (x : codeunit) (s : jsstring) : In x (trimStart s) -> In x s.
Proof.
  induction s as [|c s IH]; cbn [trimStart]; [tauto|].
  destruct (isWhiteSpace c); [right; auto | auto].
Qed.

Lemma trimEnd_In (x : codeunit) (s : jsstring) : In x (trimEnd s) -> In x s.
Proof.
  induction s as [|c s IH]; cbn [trimEnd]; [tauto|].
  destruct (trimEnd s) as [|r rs].
  - destruct (isWhiteSpace c); cbn; tauto.
  - intros [H|H]; [now left | right; apply IH; exact H].
Qed.

Lemma trim_In (x : codeunit) (s : jsstring) : In x (trim s) -> In x s.
Proof. intros H. now apply trimStart_In, trimEnd_In. Qed.

Lemma takeUntil_In (d x : codeunit) (s : jsstring) :
  In x (takeUntil d s) -> In x s.
Proof.
  induction s as [|c s IH]; cbn [takeUntil]; [tauto|].
  destruct (cu_eqb c d); cbn; [tauto|]. intros [H|H]; auto.
Qed.

Lemma skipn_In {A} (x : A) (n : nat) (l : list A) : In x (skipn n l) -> In x l.
Proof.
  revert l. induction n as [|n IH]; intros [|a l]; cbn; auto.
Qed.

Lemma match_cf_bm_In (x : codeunit) (cookie v : jsstring) :
  match_cf_bm cookie = Some v -> In x v -> In x cookie.
Proof.
  induction cookie as [|c rest IH]; [discriminate|].
  rewrite match_cf_bm_cons.
  assert (Hrest : match_cf_bm rest = Some v -> In x v -> In x (c :: rest)).
  { intros H1 H2. right. now apply IH. }
  destruct (startsWith (c :: rest) (lit "__cf_bm=")); [|exact Hrest].
  destruct (takeUntil SEMICOLON (skipn 8 (c :: rest))) as [|y ys] eqn:E;
    [exact Hrest|].
  intros [= <-] Hx. rewrite <- E in Hx.
  eapply skipn_In, takeUntil_In, Hx.
Qed.

Lemma first_cf_bm_from (cookies : list jsstring) (k : jsstring) :
  first_cf_bm cookies = Some k ->
  exists cookie v, In cookie cookies /\ match_cf_bm cookie = Some v
                   /\ k = lit "__cf_bm=" ++ v.
Proof.
  induction cookies as [|x xs IH]; cbn [first_cf_bm]; [discriminate|].
  destruct (match_cf_bm x) as [v|] eqn:E.
  - intros [= <-]. exists x, v. repeat split; [now left | exact E].
  - intros H. destruct (IH H) as (ck & v & Hin & Hm & Hk).
    exists ck, v. repeat split; [now right | exact Hm | exact Hk].
Qed.

Lemma fetchCfBmCookie_fallback_result
  (w : World) (sessionKey : jsstring) (c : Cache) (e : Error) :
  cache_hit w c = false ->
  strategyA w sessionKey = Throw e ->
  includes (message e) (lit "Timeout") = false ->
  outcome (fetchCfBmCookie w sessionKey c)
  = Return
      match abort_after_timeout
              (global_fetch w API_BASE_URL (priming_headers sessionKey)) with
      | Return response =>
          match headers_get response (lit "set-cookie") with
          | Some h =>
              if truthy_str h
              then first_cf_bm (map trim (split h COMMA))
              else None
          | None => None
          end
      | Throw _ => None
      end.
Proof.
  intros Hc EA ET. unfold cache_hit in Hc.
  unfold strategyA, priming_headers in *.
  run_acquirer. rewrite Hc, EA. cbv beta iota zeta. rewrite ET.
  cbn [negb]. cbv beta iota zeta.
  destruct (abort_after_timeout _) as [response|e2]; [|reflexivity].
  cbv beta iota zeta.
  destruct (headers_get response (lit "set-cookie")) as [h|]; [|reflexivity].
  destruct (truthy_str h); [|reflexivity].
  rewrite scan_cookies_run. reflexivity.
Qed.

(** X18. A cookie obtained through the fetch fallback never holds a
    comma.  Strategy B cuts the combined [Set-Cookie] header at every
    comma before it looks for [__cf_bm], so the value it stores is free of
    [,] as well as of [;] -- a value with a comma in it is stored cut at
    the comma, where strategy A would have stored it whole. *)
Theorem fallback_cookie_has_no_comma
  (w : World) (sessionKey : jsstring) (c : Cache) (e : Error) (k : jsstring) :
  cache_hit w c = false ->
  strategyA w sessionKey = Throw e ->
  includes (message e) (lit "Timeout") = false ->
  outcome (fetchCfBmCookie w sessionKey c) = Return (Some k) ->
  exists v, k = lit "__cf_bm=" ++ v
            /\ v <> [] /\ ~ In SEMICOLON v /\ ~ In COMMA v.
Proof.
  intros Hc EA ET Hk.
  rewrite (fetchCfBmCookie_fallback_result w sessionKey c e Hc EA ET) in Hk.
  destruct (abort_after_timeout _) as [response|e2]; [|discriminate].
  destruct (headers_get response (lit "set-cookie")) as [h|]; [|discriminate].
  destruct (truthy_str h); [|discriminate].
  injection Hk as Hk.
  destruct (first_cf_bm_from _ _ Hk) as (cookie & v & Hin & Hm & ->).
  exists v. split; [reflexivity|].
  destruct (match_cf_bm_capture cookie v Hm) as [Hne Hsemi].
  split; [exact Hne|]. split; [exact Hsemi|].
  intros Hcomma.
  apply in_map_iff in Hin. destruct Hin as (piece & <- & Hpiece).
  pose proof (split_pieces_free h COMMA) as Hfree.
  rewrite Forall_forall in Hfree.
  apply (Hfree piece Hpiece).
  apply trim_In. now apply (match_cf_bm_In COMMA (trim piece) v).
Qed.

Lemma fallback_cookie_has_no_comma_witness :
  exists v, lit "__cf_bm=a" = lit "__cf_bm=" ++ v
            /\ v <> [] /\ ~ In SEMICOLON v /\ ~ In COMMA v.
Proof.
  apply (fallback_cookie_has_no_comma Samples.w_fallback Samples.credential
           initial_cache (mkError (lit "Error") (lit "connect ECONNREFUSED"))
           (lit "__cf_bm=a")); reflexivity.
Defined.

(** Strategy A, given the same cookie on its own line, stores it whole. *)
Example strategyA_keeps_the_comma :
  first_cf_bm [lit "other=1; Path=/"; lit "__cf_bm=a,b; Path=/; HttpOnly"]
  = Some (lit "__cf_bm=a,b").
Proof. reflexivity. Qed.

(** X19. A priming response from undici ends the acquisition, cookie or
    not: when strategy A gets a response, the fetch fallback is not tried.
    If that response carries no [Set-Cookie] header the result is null,
    the cache is left as it was, and [fetchUsage] goes on without the
    mitigation cookie, sending the formatted credential alone. *)
Theorem priming_response_ends_acquisition
  (w : World) (sessionKey : jsstring) (c : Cache) (resp : UndiciResponse) :
  cache_hit w c = false ->
  strategyA w sessionKey = Return resp ->
  calls (fetchCfBmCookie w sessionKey c) = [callA]
  /\ (responseHeaders resp (lit "set-cookie") = None ->
      fetchCfBmCookie w sessionKey c = (Return None, c, [callA])
      /\ request_headers w sessionKey c
         = getStandardHeaders (formatSessionKeyCookie sessionKey)).
Proof.
  intros Hc EA. split.
  - destruct (fetchCfBmCookie_miss w sessionKey) as (found & more & _ & HA & Hrun).
    rewrite (Hrun c Hc). rewrite EA in HA. now rewrite HA.
  - intros Hh.
    assert (Hrun : fetchCfBmCookie w sessionKey c = (Return None, c, [callA])).
    { unfold cache_hit in Hc. unfold strategyA, priming_headers in EA.
      run_acquirer. rewrite Hc, EA. cbv beta iota zeta. now rewrite Hh. }
    split; [exact Hrun|].
    unfold request_headers, acquired. now rewrite Hrun.
Qed.

Lemma priming_response_ends_acquisition_witness :
  calls (fetchCfBmCookie Samples.w_no_cookie Samples.credential initial_cache)
  = [callA].
Proof.
  apply (priming_response_ends_acquisition Samples.w_no_cookie
           Samples.credential initial_cache
           (mkUndiciResponse 200 Samples.no_headers Samples.not_json));
    reflexivity.
Defined.
